(** * mrequests: parallel HTTP requests over a process pool

    A shallow embedding of [mrequests.py] and the properties of its
    batch ([map]) and stream ([imap]) executors.

    Conventions of the embedding.
    - Python objects that the module only passes around are values of
      [Value]; keyword-argument dictionaries are [gmap string Value].
    - The HTTP transport ([Session.request] of the requests library) is
      an oracle [session_request]: it either hands back a [Response] or
      raises an [Exception], the class that [except Exception] catches.
      Everything proved below holds for every oracle.
    - A [Response] is truthy exactly when requests' [Response.ok] holds,
      that is when its status code is outside 400..599.
    - Code that runs in the calling process and may raise, and whose
      effects are observable (pool life cycle, calls of the exception
      handler), lives in the monad [Py]: a trace of events plus an
      outcome that is a value or a raised exception.
    - The worker pool pickles a unit into a worker and pickles the unit
      returned by [send] back; this is modelled as the function [send]
      applied to the attribute values of the unit.
    - The requests given to [map] and [imap] are finite lists; the
      order in which the units of [imap] finish is a parameter. *)

From stdpp Require Import gmap strings list fin_maps.
From Stdlib Require Import ZArith Lia.

Local Open Scope string_scope.
Local Open Scope list_scope.
Local Open Scope Z_scope.

(** ** Python values *)

#[warnings="-register-all"]
Inductive Value : Type :=
| VNone
| VBool (b : bool)
| VInt (z : Z)
| VStr (s : string)
| VCallable (name : string)
| VSession (id : nat)
| VDict (items : list (string * Value)).

(** Truth value testing, as [if v:] does it. *)
Definition truthy (v : Value) : bool :=
  match v with
  | VNone => false
  | VBool b => b
  | VInt z => negb (z =? 0)
  | VStr s => negb (String.eqb s "")
  | VCallable _ => true
  | VSession _ => true
  | VDict items => match items with [] => false | _ :: _ => true end
  end.

(** [v is None] *)
Definition is_None (v : Value) : bool :=
  match v with VNone => true | _ => false end.

(** [d.pop(k, dflt)]: the value removed (or the default) and the
    dictionary afterwards. *)
Definition pop (k : string) (dflt : Value) (d : gmap string Value)
  : Value * gmap string Value :=
  (default dflt (d !! k), delete k d).

(** [d.update(other)]: the entries of [other] win. *)
Definition update (d other : gmap string Value) : gmap string Value :=
  other ∪ d.

(** ** The requests library, as far as the module sees it *)

Record Exception : Type := mkException {
  exc_class : string;
  exc_msg : string
}.

Record Response : Type := mkResponse {
  status_code : Z;
  text : string
}.

(** [Response.__bool__] returns [Response.ok]: false for 4xx and 5xx. *)
Definition Response_bool (r : Response) : bool :=
  negb ((400 <=? status_code r) && (status_code r <? 600)).

Inductive TransportResult : Type :=
| Responded (r : Response)
| Failed (e : Exception).

(** ** class AsyncRequest *)

(** [response = None] is Python's [None]; [exception = None] means that
    the attribute has never been assigned (the constructor does not
    create it), so that reading it raises [AttributeError]. *)
Record AsyncRequest : Type := mkAsyncRequest {
  method : string;
  url : string;
  session : Value;
  kwargs : gmap string Value;
  response : option Response;
  exception : option Exception
}.

Definition set_response (self : AsyncRequest) (r : Response) : AsyncRequest :=
  {| method := method self; url := url self; session := session self;
     kwargs := kwargs self; response := Some r;
     exception := exception self |}.

Definition set_exception (self : AsyncRequest) (e : Exception) : AsyncRequest :=
  {| method := method self; url := url self; session := session self;
     kwargs := kwargs self; response := response self;
     exception := Some e |}.

(** [AsyncRequest.__init__(self, method, url, **kwargs)].  [sid] is the
    identity that a newly created [Session()] receives. *)
Definition AsyncRequest_init (sid : nat) (method_ url_ : string)
    (kw : gmap string Value) : AsyncRequest :=
  let '(session_, kw) := pop "session" VNone kw in
  let session_ := if is_None session_ then VSession sid else session_ in
  let '(callback, kw) := pop "callback" VNone kw in
  let kw :=
    if truthy callback
    then <["hooks" := VDict [("response", callback)]]> kw
    else kw in
  {| method := method_; url := url_; session := session_; kwargs := kw;
     response := None; exception := None |}.

(** Shortcuts: the constructor with the method fixed. *)
Definition get (sid : nat) := AsyncRequest_init sid "GET".
Definition options (sid : nat) := AsyncRequest_init sid "OPTIONS".
Definition head (sid : nat) := AsyncRequest_init sid "HEAD".
Definition post (sid : nat) := AsyncRequest_init sid "POST".
Definition put (sid : nat) := AsyncRequest_init sid "PUT".
Definition patch (sid : nat) := AsyncRequest_init sid "PATCH".
(** [delete]; the plain name is that of the removal of a key. *)
Definition delete_ (sid : nat) := AsyncRequest_init sid "DELETE".

(** [request(method, url, **kwargs)] *)
Definition request (sid : nat) (method_ url_ : string)
    (kw : gmap string Value) : AsyncRequest :=
  AsyncRequest_init sid method_ url_ kw.

(** The options handed to the transport by [AsyncRequest.send]. *)
Definition merged_kwargs (self : AsyncRequest) (kw : gmap string Value)
  : gmap string Value :=
  let merged := ∅ in
  let merged := update merged (kwargs self) in
  let merged := update merged kw in
  merged.

Section Transport.

(** [session.request(method, url, **kwargs)] *)
Variable session_request :
  Value -> string -> string -> gmap string Value -> TransportResult.

(** [AsyncRequest.send(self, **kwargs)]: the receiver after the call.
    The method returns [self]. *)
Definition AsyncRequest_send (self : AsyncRequest) (kw : gmap string Value)
  : AsyncRequest :=
  match session_request (session self) (method self) (url self)
                (merged_kwargs self kw) with
  | Responded r => set_response self r
  | Failed e => set_exception self e
  end.

(** The same method on an object store: [self] is a reference, the unit
    it points to is mutated in place and the reference is returned. *)
Definition send_at (self : nat) (kw : gmap string Value)
    (heap : gmap nat AsyncRequest) : option (nat * gmap nat AsyncRequest) :=
  match heap !! self with
  | Some u => Some (self, <[self := AsyncRequest_send u kw]> heap)
  | None => None
  end.

(** [send(r, stream=False)] *)
Definition send (r : AsyncRequest) (stream : bool) : AsyncRequest :=
  AsyncRequest_send r {["stream" := VBool stream]}.

End Transport.

(** ** Effects in the calling process *)

Inductive Event : Type :=
| PoolCreated (processes : Z)
| PoolClosed
| PoolJoined
| HandlerCalled (request : AsyncRequest) (e : Exception).

Inductive Outcome (A : Type) : Type :=
| Returned (a : A)
| Raised (e : Exception).
Arguments Returned {A} a.
Arguments Raised {A} e.

(** A computation extends the trace of events and returns or raises. *)
Definition Py (A : Type) : Type := list Event -> Outcome A * list Event.

#[export] Instance Py_ret : MRet Py := fun A a tr => (Returned a, tr).

#[export] Instance Py_bind : MBind Py := fun A B f m tr =>
  match m tr with
  | (Returned a, tr') => f a tr'
  | (Raised e, tr') => (Raised e, tr')
  end.

Definition raise {A : Type} (e : Exception) : Py A :=
  fun tr => (Raised e, tr).

Definition emit (ev : Event) : Py unit :=
  fun tr => (Returned tt, tr ++ [ev]).

Definition AttributeError : Exception :=
  mkException "AttributeError"
              "'AsyncRequest' object has no attribute 'exception'".

Definition ValueError : Exception :=
  mkException "ValueError" "Number of processes must be at least 1".

(** [request.exception]: an attribute read. *)
Definition get_exception (r : AsyncRequest) : Py Exception :=
  match exception r with
  | Some e => mret e
  | None => raise AttributeError
  end.

(** The caller's exception handler: it is called with the unit and the
    exception, and returns a value or raises. *)
Definition Handler : Type := AsyncRequest -> Exception -> Outcome Value.

Definition call_handler (h : Handler) (r : AsyncRequest) (e : Exception)
  : Py Value :=
  fun tr => (h r e, tr ++ [HandlerCalled r e]).

(** The calls of the handler recorded in a trace, oldest first. *)
Definition handler_calls (tr : list Event)
  : list (AsyncRequest * Exception) :=
  omap (fun ev => match ev with
                  | HandlerCalled r e => Some (r, e)
                  | _ => None
                  end) tr.

Definition is_PoolCreated (ev : Event) : bool :=
  match ev with PoolCreated _ => true | _ => false end.
Definition is_PoolClosed (ev : Event) : bool :=
  match ev with PoolClosed => true | _ => false end.
Definition is_PoolJoined (ev : Event) : bool :=
  match ev with PoolJoined => true | _ => false end.

(** The pool life cycle recorded in a trace. *)
Definition pool_events (tr : list Event) : list Event :=
  List.filter (fun ev => is_PoolCreated ev || is_PoolClosed ev
                                          || is_PoolJoined ev) tr.

(** A pool was created, then closed, then joined. *)
Definition pool_shut_down (tr : list Event) : bool :=
  match pool_events tr with
  | [PoolCreated _; PoolClosed; PoolJoined] => true
  | _ => false
  end.

(** A pool was created and neither closed nor joined. *)
Definition pool_left_running (tr : list Event) : bool :=
  match pool_events tr with
  | [PoolCreated _] => true
  | _ => false
  end.

(** Truth value of [request.response]. *)
Definition response_truthy (o : option Response) : bool :=
  match o with
  | Some r => Response_bool r
  | None => false
  end.

(** The [elif exception_handler:] branch of both result loops. *)
Definition handle_failure (exception_handler : option Handler)
    (request : AsyncRequest) : Py unit :=
  match exception_handler with
  | Some h =>
      e ← get_exception request;
      _ ← call_handler h request e;
      mret tt
  | None => mret tt
  end.

(** The [for request in requests:] loop of [map]. *)
Fixpoint map_loop (exception_handler : option Handler)
    (requests : list AsyncRequest) (ret : list Response)
  : Py (list Response) :=
  match requests with
  | [] => mret ret
  | request :: rest =>
      let otherwise :=
        _ ← handle_failure exception_handler request;
        map_loop exception_handler rest ret in
      match response request with
      | Some r =>
          if Response_bool r
          then map_loop exception_handler rest (ret ++ [r])
          else otherwise
      | None => otherwise
      end
  end.

(** The [for] loop of [imap] up to its next [yield]: the response
    yielded with the units still to come, or [None] when the iterator
    is exhausted. *)
Fixpoint imap_loop (exception_handler : option Handler)
    (completed : list AsyncRequest)
  : Py (option (Response * list AsyncRequest)) :=
  match completed with
  | [] => mret None
  | request :: rest =>
      let otherwise :=
        _ ← handle_failure exception_handler request;
        imap_loop exception_handler rest in
      match response request with
      | Some r =>
          if Response_bool r
          then mret (Some (r, rest))
          else otherwise
      | None => otherwise
      end
  end.

(** [size] in a condition: [None] and [0] are false. *)
Definition size_truthy (size : option Z) : bool :=
  match size with
  | Some n => negb (n =? 0)
  | None => false
  end.

(** The state of the generator object that [imap] returns. *)
Inductive GenState : Type :=
| GenCreated
| GenSuspended (pending : list AsyncRequest)
| GenClosed.

Record Generator : Type := mkGenerator {
  gi_requests : list AsyncRequest;
  gi_stream : bool;
  gi_size : option Z;
  gi_exception_handler : option Handler;
  gi_state : GenState
}.

(** What one [next] on the generator gives. *)
Inductive Pulled : Type :=
| Yielded (r : Response)
| Exhausted
| Escaped (e : Exception).

Definition with_state (g : Generator) (s : GenState) : Generator :=
  {| gi_requests := gi_requests g; gi_stream := gi_stream g;
     gi_size := gi_size g;
     gi_exception_handler := gi_exception_handler g; gi_state := s |}.

Section Executor.

Variable session_request :
  Value -> string -> string -> gmap string Value -> TransportResult.

(** [os.cpu_count()]: the number of processing units, or [None]. *)
Variable cpu_count : option N.

(** The order in which the units of a pool finish. *)
Variable completion_order : list AsyncRequest -> list AsyncRequest.

(** [os.cpu_count() or 1] *)
Definition default_processes : Z :=
  match cpu_count with
  | Some n => if (n =? 0)%N then 1 else Z.of_N n
  | None => 1
  end.

(** [multiprocessing.Pool(processes)]: [None] asks for the default
    size, a size below one is refused. *)
Definition Pool (processes : option Z) : Py Z :=
  let n := match processes with
           | Some n => n
           | None => default_processes
           end in
  if n <? 1 then raise ValueError
  else _ ← emit (PoolCreated n); mret n.

Definition Pool_close : Py unit := emit PoolClosed.
Definition Pool_join : Py unit := emit PoolJoined.

(** [pool.map(func, iterable)]: the results in the order of the input. *)
Definition Pool_map (func : AsyncRequest -> AsyncRequest)
    (iterable : list AsyncRequest) : list AsyncRequest :=
  List.map func iterable.

(** [pool.imap_unordered(func, iterable)]: the results as they finish. *)
Definition Pool_imap_unordered (func : AsyncRequest -> AsyncRequest)
    (iterable : list AsyncRequest) : list AsyncRequest :=
  completion_order (List.map func iterable).

(** The pool that [map] asks for. *)
Definition map_pool (size : option Z) : Py Z :=
  if size_truthy size then Pool size else Pool None.

(** [map(requests, stream=False, size=None, exception_handler=None)];
    [list(requests)] is the list itself. *)
Definition map (requests : list AsyncRequest) (stream : bool)
    (size : option Z) (exception_handler : option Handler)
  : Py (list Response) :=
  pool ← map_pool size;
  let requests := Pool_map (fun r => send session_request r stream) requests in
  _ ← Pool_close;
  _ ← Pool_join;
  map_loop exception_handler requests [].

(** [imap(requests, stream=False, size=5, exception_handler=None)]:
    calling a generator function runs none of its body. *)
Definition imap (requests : list AsyncRequest) (stream : bool)
    (size : option Z) (exception_handler : option Handler) : Generator :=
  mkGenerator requests stream size exception_handler GenCreated.

(** The body of [imap] from the loop over [completed] to the next
    [yield] or to the end of the function. *)
Definition imap_resume (g : Generator) (completed : list AsyncRequest)
  : Py (option (Response * list AsyncRequest)) :=
  y ← imap_loop (gi_exception_handler g) completed;
  match y with
  | Some _ => mret y
  | None => _ ← Pool_close; _ ← Pool_join; mret None
  end.

(** The body of [imap] from its first statement. *)
Definition imap_start (g : Generator)
  : Py (option (Response * list AsyncRequest)) :=
  pool ← Pool (gi_size g);
  imap_resume g
    (Pool_imap_unordered (fun r => send session_request r (gi_stream g))
                         (gi_requests g)).

(** [next(g)]: the body runs to its next [yield] ([Yielded]), to its
    end ([Exhausted], which the caller sees as [StopIteration]), or
    until an exception leaves it ([Escaped]).  A generator whose body
    ended or raised is finished for good. *)
Definition next (g : Generator) (tr : list Event)
  : Pulled * Generator * list Event :=
  let run (body : Py (option (Response * list AsyncRequest))) :=
    match body tr with
    | (Returned (Some (r, rest)), tr') =>
        (Yielded r, with_state g (GenSuspended rest), tr')
    | (Returned None, tr') => (Exhausted, with_state g GenClosed, tr')
    | (Raised e, tr') => (Escaped e, with_state g GenClosed, tr')
    end in
  match gi_state g with
  | GenCreated => run (imap_start g)
  | GenSuspended rest => run (imap_resume g rest)
  | GenClosed => (Exhausted, g, tr)
  end.

(** [g.close()], also what dropping the generator does: [GeneratorExit]
    is raised at the [yield] where the body is parked; [imap] has no
    [try] around its loop, so the exception leaves the body at once and
    no further statement of the body runs. *)
Definition close (g : Generator) (tr : list Event)
  : Generator * list Event :=
  (with_state g GenClosed, tr).

(** [list(g)]: pull until [StopIteration]. *)
Fixpoint drain (fuel : nat) (g : Generator) (acc : list Response)
    (tr : list Event)
  : option (Outcome (list Response) * Generator * list Event) :=
  match fuel with
  | O => None
  | S fuel =>
      match next g tr with
      | (Yielded r, g', tr') => drain fuel g' (acc ++ [r]) tr'
      | (Exhausted, g', tr') => Some (Returned acc, g', tr')
      | (Escaped e, g', tr') => Some (Raised e, g', tr')
      end
  end.

(** Pull [n] responses, then abandon the generator. *)
Fixpoint take_then_close (n : nat) (g : Generator) (acc : list Response)
    (tr : list Event)
  : Outcome (list Response) * Generator * list Event :=
  match n with
  | O => let '(g', tr') := close g tr in (Returned acc, g', tr')
  | S n =>
      match next g tr with
      | (Yielded r, g', tr') => take_then_close n g' (acc ++ [r]) tr'
      | (Exhausted, g', tr') => (Returned acc, g', tr')
      | (Escaped e, g', tr') => (Raised e, g', tr')
      end
  end.

End Executor.

(** ** A test bed: a transport that answers by URL *)

Definition ConnectionError : Exception :=
  mkException "ConnectionError" "connection refused".

(** [/fail] raises, [/missing] answers 404, [/flaky] raises when the
    body is to be streamed, every other URL answers 200. *)
Definition demo_transport (session_ : Value) (method_ url_ : string)
    (kw : gmap string Value) : TransportResult :=
  if String.eqb url_ "/fail" then Failed ConnectionError
  else if String.eqb url_ "/missing"
  then Responded (mkResponse 404 "not found")
  else if String.eqb url_ "/flaky"
  then match kw !! "stream" with
       | Some (VBool true) => Failed ConnectionError
       | _ => Responded (mkResponse 200 "flaky")
       end
  else Responded (mkResponse 200 url_).

(** A handler that returns [None]; its calls show in the trace. *)
Definition recording_handler : Handler := fun _ _ => Returned VNone.

(** A host with four processing units. *)
Definition demo_cpu_count : option N := Some 4%N.

(** Units finish in the order of the input, or in the reverse order. *)
Definition in_order (l : list AsyncRequest) : list AsyncRequest := l.
Definition reversed (l : list AsyncRequest) : list AsyncRequest := rev l.

Definition demo_map := map demo_transport demo_cpu_count.
Definition demo_imap_next := next demo_transport demo_cpu_count in_order.

(** Units of the test bed. *)
Definition unit_ok : AsyncRequest := get 0 "/ok" ∅.
Definition unit_ok2 : AsyncRequest := get 1 "/ok2" ∅.
Definition unit_fail : AsyncRequest := get 2 "/fail" ∅.
Definition unit_missing : AsyncRequest := get 3 "/missing" ∅.
Definition unit_flaky : AsyncRequest := get 4 "/flaky" ∅.

(** ** Notions used in the statements *)

(** The transport answers the call that [send(r, stream)] makes. *)
Definition transport_ok
    (session_request : Value -> string -> string -> gmap string Value
                       -> TransportResult)
    (stream : bool) (r : AsyncRequest) : bool :=
  match session_request (session r) (method r) (url r)
                (merged_kwargs r {["stream" := VBool stream]}) with
  | Responded _ => true
  | Failed _ => false
  end.

(** The response of a unit when [if request.response:] holds. *)
Definition truthy_response (r : AsyncRequest) : option Response :=
  match response r with
  | Some resp => if Response_bool resp then Some resp else None
  | None => None
  end.

(** The units that take the [elif] branch, with their exception. *)
Definition failure_of (r : AsyncRequest)
  : option (AsyncRequest * Exception) :=
  match truthy_response r, exception r with
  | None, Some e => Some (r, e)
  | _, _ => None
  end.

(** Number of outcome slots of a unit that hold something. *)
Definition populated_slots (r : AsyncRequest) : nat :=
  (match response r with Some _ => 1 | None => 0 end
   + match exception r with Some _ => 1 | None => 0 end)%nat.

(** The sizes with which [map] obtains a pool: [None], zero (both give
    the default pool) and the positive ones. *)
Definition size_accepted (size : option Z) : bool :=
  match size with
  | Some n => 0 <=? n
  | None => true
  end.

(** A unit as the constructor leaves it: not sent yet. *)
Definition unsent (r : AsyncRequest) : Prop :=
  response r = None /\ exception r = None.

Definition is_HandlerCalled (ev : Event) : bool :=
  match ev with HandlerCalled _ _ => true | _ => false end.

(** The events that calls of the handler leave in a trace. *)
Definition calls_recorded (calls : list (AsyncRequest * Exception))
  : list Event :=
  List.map (fun p => HandlerCalled (fst p) (snd p)) calls.

(** The result loops get past the unit [r] without raising: when [r]
    takes the [elif] branch and there is a handler, [r] has its
    exception attribute and the handler returns on it. *)
Definition handled (h : option Handler) (r : AsyncRequest) : Prop :=
  truthy_response r = None ->
  match h with
  | Some f => exists e v, exception r = Some e /\ f r e = Returned v
  | None => True
  end.

(** What the result loops record for the units [l] when they get past
    all of them. *)
Definition reported (h : option Handler) (l : list AsyncRequest)
  : list Event :=
  match h with
  | Some _ => calls_recorded (omap failure_of l)
  | None => []
  end.

(** A handler that always raises. *)
Definition raising_handler : Handler :=
  fun _ _ => Raised (mkException "RuntimeError" "handler failed").

(** The sizes with which [imap] obtains a pool: [None] and the positive
    ones. *)
Definition imap_size_accepted (size : option Z) : bool :=
  match size with
  | Some n => 0 <? n
  | None => true
  end.

(** Closes [Forall (handled h) l] on units of the test bed. *)
Ltac handled_by_evaluation :=
  repeat constructor;
  intros Hnone;
  first [ vm_compute in Hnone; discriminate Hnone
        | eexists _, _; split; vm_compute; reflexivity ].

(** * Properties *)

(** ** Dictionaries *)

Lemma update_lookup (d other : gmap string Value) (k : string) :
  update d other !! k =
  match other !! k with
  | Some v => Some v
  | None => d !! k
  end.
Proof.
  unfold update. destruct (other !! k) as [v|] eqn:Hk.
  - by apply lookup_union_Some_l.
  - by apply lookup_union_r.
Qed.

Lemma merged_kwargs_lookup (self : AsyncRequest) (kw : gmap string Value)
    (k : string) :
  merged_kwargs self kw !! k =
  match kw !! k with
  | Some v => Some v
  | None => kwargs self !! k
  end.
Proof.
  unfold merged_kwargs. rewrite !update_lookup.
  destruct (kw !! k); [done|]. by rewrite lookup_empty; destruct (kwargs self !! k).
Qed.

(** ** The constructor *)

Lemma init_kwargs (sid : nat) (m u : string) (kw : gmap string Value) :
  kwargs (AsyncRequest_init sid m u kw) =
  let cb := default VNone (delete "session" kw !! "callback") in
  let rest := delete "callback" (delete "session" kw) in
  if truthy cb then <["hooks" := VDict [("response", cb)]]> rest else rest.
Proof.
  unfold AsyncRequest_init, pop. cbn.
  by destruct (truthy (default VNone (delete "session" kw !! "callback"))).
Qed.

Lemma init_unsent (sid : nat) (m u : string) (kw : gmap string Value) :
  unsent (AsyncRequest_init sid m u kw).
Proof.
  unfold unsent, AsyncRequest_init, pop. cbn.
  by destruct (truthy (default VNone (delete "session" kw !! "callback"))).
Qed.

(** C10: with a truthy [callback] the options of the unit carry
    [hooks = {'response': callback}] whatever [hooks] the caller passed
    (the caller's entry is replaced, not merged); with a falsy or
    absent [callback] the [hooks] entry is the caller's own, and in
    both cases nothing else is added to the options. *)
Theorem C10_callback_replaces_hooks (sid : nat) (m u : string)
    (kw : gmap string Value) :
  let cb := default VNone (kw !! "callback") in
  let rest := delete "callback" (delete "session" kw) in
  kwargs (AsyncRequest_init sid m u kw) !! "hooks" =
    (if truthy cb then Some (VDict [("response", cb)]) else kw !! "hooks")
  /\ kwargs (AsyncRequest_init sid m u kw) =
    (if truthy cb then <["hooks" := VDict [("response", cb)]]> rest
     else rest).
Proof.
  cbn zeta. rewrite init_kwargs. cbn zeta.
  rewrite (lookup_delete_ne kw "session" "callback") by done.
  destruct (truthy (default VNone (kw !! "callback"))); split; try done.
  - by rewrite lookup_insert_eq.
  - by rewrite !lookup_delete_ne.
Qed.

(** ** The execution unit *)

Section SendProperties.

Variable session_request :
  Value -> string -> string -> gmap string Value -> TransportResult.

Lemma send_responded (self : AsyncRequest) (kw : gmap string Value)
    (r : Response) :
  session_request (session self) (method self) (url self) (merged_kwargs self kw)
    = Responded r ->
  AsyncRequest_send session_request self kw = set_response self r.
Proof. intros H. unfold AsyncRequest_send. by rewrite H. Qed.

Lemma send_failed (self : AsyncRequest) (kw : gmap string Value)
    (e : Exception) :
  session_request (session self) (method self) (url self) (merged_kwargs self kw)
    = Failed e ->
  AsyncRequest_send session_request self kw = set_exception self e.
Proof. intros H. unfold AsyncRequest_send. by rewrite H. Qed.

(** [send] never touches the descriptor. *)
Lemma send_descriptor (self : AsyncRequest) (kw : gmap string Value) :
  let self' := AsyncRequest_send session_request self kw in
  method self' = method self /\ url self' = url self
  /\ session self' = session self /\ kwargs self' = kwargs self.
Proof.
  cbn zeta. unfold AsyncRequest_send.
  by destruct (session_request _ _ _ _).
Qed.

(** C8: when the stored options already have a [stream] entry, the
    options that [send(r, stream)] hands to the transport carry the
    override under [stream], every other stored option unchanged, and
    it is with these options that the transport is called. *)
Theorem C8_stream_override_wins (r : AsyncRequest) (stream : bool)
    (stored : Value) :
  kwargs r !! "stream" = Some stored ->
  let merged := merged_kwargs r {["stream" := VBool stream]} in
  merged !! "stream" = Some (VBool stream)
  /\ (forall k, k <> "stream" -> merged !! k = kwargs r !! k)
  /\ send session_request r stream =
     match session_request (session r) (method r) (url r) merged with
     | Responded resp => set_response r resp
     | Failed e => set_exception r e
     end.
Proof.
  intros _. cbn zeta. split; [|split].
  - by rewrite merged_kwargs_lookup, lookup_singleton_eq.
  - intros k Hk. rewrite merged_kwargs_lookup.
    by rewrite lookup_singleton_ne.
  - reflexivity.
Qed.

(** C4: when the transport raises [e], [send] returns normally; the
    unit it returns is the receiver with [e] in its failure slot, its
    response slot as it was (so still empty when it was empty) and its
    method, URL, session and options intact.  On the object store the
    reference returned is the receiver and only the receiver changes. *)
Theorem C4_send_captures_exception (self : AsyncRequest)
    (kw : gmap string Value) (e : Exception) :
  session_request (session self) (method self) (url self) (merged_kwargs self kw)
    = Failed e ->
  let self' := AsyncRequest_send session_request self kw in
  exception self' = Some e
  /\ response self' = response self
  /\ (response self = None -> response self' = None)
  /\ method self' = method self /\ url self' = url self
  /\ session self' = session self /\ kwargs self' = kwargs self
  /\ (forall (ref : nat) (heap : gmap nat AsyncRequest),
        heap !! ref = Some self ->
        send_at session_request ref kw heap = Some (ref, <[ref := self']> heap)
        /\ forall other, other <> ref ->
             <[ref := self']> heap !! other = heap !! other).
Proof.
  intros H. cbn zeta. rewrite (send_failed _ _ _ H).
  repeat split; try done.
  - unfold send_at.
    match goal with Hh : _ !! _ = Some self |- _ => rewrite Hh end.
    by rewrite (send_failed _ _ _ H).
  - intros other Hne. by rewrite lookup_insert_ne.
Qed.

(** A unit that has not been sent has exactly one slot filled after
    [send]. *)
Lemma send_unsent_one_slot (self : AsyncRequest) (kw : gmap string Value) :
  unsent self ->
  populated_slots (AsyncRequest_send session_request self kw) = 1%nat.
Proof.
  intros [Hr He]. unfold AsyncRequest_send, populated_slots.
  destruct (session_request _ _ _ _); cbn; by rewrite ?Hr, ?He.
Qed.

(** C5, amended: for a unit that has not been sent before (both slots
    as the constructor leaves them), after [send] exactly one slot is
    filled: the response when the transport answers, the failure when
    it raises. *)
Theorem C5_first_send_fills_one_slot (self : AsyncRequest)
    (kw : gmap string Value) :
  unsent self ->
  let self' := AsyncRequest_send session_request self kw in
  populated_slots self' = 1%nat
  /\ match session_request (session self) (method self) (url self)
                   (merged_kwargs self kw) with
     | Responded r => response self' = Some r /\ exception self' = None
     | Failed e => response self' = None /\ exception self' = Some e
     end.
Proof.
  intros Hu. cbn zeta. split; [by apply send_unsent_one_slot|].
  destruct Hu as [Hr He]. unfold AsyncRequest_send.
  destruct (session_request _ _ _ _); cbn; by rewrite ?Hr, ?He.
Qed.

End SendProperties.

(** C8 on a unit built with [stream=True] and a timeout, sent with
    [stream=False]. *)
Lemma C8_stream_override_wins_witness :
  let r := get 0 "/ok" {["stream" := VBool true; "timeout" := VInt 5]} in
  let merged := merged_kwargs r {["stream" := VBool false]} in
  merged !! "stream" = Some (VBool false)
  /\ (forall k, k <> "stream" -> merged !! k = kwargs r !! k)
  /\ send demo_transport r false =
     match demo_transport (session r) (method r) (url r) merged with
     | Responded resp => set_response r resp
     | Failed e => set_exception r e
     end.
Proof.
  apply (C8_stream_override_wins demo_transport
           (get 0 "/ok" {["stream" := VBool true; "timeout" := VInt 5]})
           false (VBool true)).
  vm_compute. reflexivity.
Defined.

(** C4 on the unit whose URL makes the test transport raise. *)
Lemma C4_send_captures_exception_witness :
  let self' := AsyncRequest_send demo_transport unit_fail
                 {["stream" := VBool false]} in
  exception self' = Some ConnectionError
  /\ response self' = response unit_fail
  /\ (response unit_fail = None -> response self' = None)
  /\ method self' = method unit_fail /\ url self' = url unit_fail
  /\ session self' = session unit_fail /\ kwargs self' = kwargs unit_fail
  /\ (forall (ref : nat) (heap : gmap nat AsyncRequest),
        heap !! ref = Some unit_fail ->
        send_at demo_transport ref {["stream" := VBool false]} heap
          = Some (ref, <[ref := self']> heap)
        /\ forall other, other <> ref ->
             <[ref := self']> heap !! other = heap !! other).
Proof.
  apply (C4_send_captures_exception demo_transport unit_fail
           {["stream" := VBool false]} ConnectionError).
  vm_compute. reflexivity.
Defined.

(** C5 on a unit straight from the constructor. *)
Lemma C5_first_send_fills_one_slot_witness :
  unsent unit_ok
  /\ populated_slots
       (AsyncRequest_send demo_transport unit_ok
          {["stream" := VBool false]}) = 1%nat.
Proof.
  split; [apply init_unsent|].
  apply (C5_first_send_fills_one_slot demo_transport unit_ok
           {["stream" := VBool false]}).
  apply init_unsent.
Defined.

(** C5 as stated fails on a unit that is sent twice: the first call
    (streamed) raises, the second one is answered, and the unit ends
    with both slots filled. *)
Lemma C5_resend_fills_both_slots :
  ~ (forall session_request (self : AsyncRequest)
            (kw : gmap string Value),
       populated_slots (AsyncRequest_send session_request self kw) = 1%nat).
Proof.
  intros H.
  specialize (H demo_transport (send demo_transport unit_flaky true)
                {["stream" := VBool false]}).
  vm_compute in H. discriminate H.
Qed.

(** ** The pool *)

Section PoolProperties.

Variable cpu_count : option N.

Lemma default_processes_pos : 1 <= default_processes cpu_count.
Proof.
  unfold default_processes. destruct cpu_count as [n|]; [|lia].
  destruct (N.eqb_spec n 0); lia.
Qed.

Lemma Pool_default (tr : list Event) :
  Pool cpu_count None tr =
  (Returned (default_processes cpu_count),
   tr ++ [PoolCreated (default_processes cpu_count)]).
Proof.
  unfold Pool. pose proof default_processes_pos as Hpos.
  destruct (Z.ltb_spec (default_processes cpu_count) 1); [lia|done].
Qed.

Lemma Pool_sized (n : Z) (tr : list Event) :
  Pool cpu_count (Some n) tr =
  if 0 <? n then (Returned n, tr ++ [PoolCreated n])
  else (Raised ValueError, tr).
Proof.
  unfold Pool.
  destruct (Z.ltb_spec n 1), (Z.ltb_spec 0 n); try lia; done.
Qed.

Lemma map_pool_accepted (size : option Z) (tr : list Event) :
  size_accepted size = true ->
  exists n, 1 <= n /\
    map_pool cpu_count size tr = (Returned n, tr ++ [PoolCreated n]).
Proof.
  unfold map_pool, size_truthy, size_accepted.
  pose proof default_processes_pos as Hpos.
  destruct size as [n|]; [|intros _; eexists; split; [|apply Pool_default]; done].
  intros Hn%Z.leb_le. destruct (Z.eqb_spec n 0) as [->|Hne]; cbn [negb].
  - eexists; split; [|apply Pool_default]; done.
  - exists n. split; [lia|]. rewrite Pool_sized.
    destruct (Z.ltb_spec 0 n); [done|lia].
Qed.

End PoolProperties.

(** ** The result loops *)

Lemma handle_failure_none (r : AsyncRequest) (tr : list Event) :
  handle_failure None r tr = (Returned tt, tr).
Proof. reflexivity. Qed.

Lemma handle_failure_unset (h : Handler) (r : AsyncRequest)
    (tr : list Event) :
  exception r = None ->
  handle_failure (Some h) r tr = (Raised AttributeError, tr).
Proof.
  intros He. unfold handle_failure, get_exception. rewrite He.
  reflexivity.
Qed.

Lemma handle_failure_call (h : Handler) (r : AsyncRequest) (e : Exception)
    (tr : list Event) :
  exception r = Some e ->
  handle_failure (Some h) r tr =
  (match h r e with
   | Returned _ => Returned tt
   | Raised x => Raised x
   end, tr ++ [HandlerCalled r e]).
Proof.
  intros He. unfold handle_failure, get_exception. rewrite He.
  unfold mbind, Py_bind, mret, Py_ret, call_handler.
  by destruct (h r e).
Qed.

Lemma map_loop_cons (h : option Handler) (r : AsyncRequest)
    (rest : list AsyncRequest) (ret : list Response) (tr : list Event) :
  map_loop h (r :: rest) ret tr =
  match truthy_response r with
  | Some resp => map_loop h rest (ret ++ [resp]) tr
  | None =>
      match handle_failure h r tr with
      | (Returned _, tr') => map_loop h rest ret tr'
      | (Raised e, tr') => (Raised e, tr')
      end
  end.
Proof.
  unfold truthy_response. cbn [map_loop].
  destruct (response r) as [resp|]; [destruct (Response_bool resp)|];
    reflexivity.
Qed.

Lemma imap_loop_cons (h : option Handler) (r : AsyncRequest)
    (rest : list AsyncRequest) (tr : list Event) :
  imap_loop h (r :: rest) tr =
  match truthy_response r with
  | Some resp => (Returned (Some (resp, rest)), tr)
  | None =>
      match handle_failure h r tr with
      | (Returned _, tr') => imap_loop h rest tr'
      | (Raised e, tr') => (Raised e, tr')
      end
  end.
Proof.
  unfold truthy_response. cbn [imap_loop].
  destruct (response r) as [resp|]; [destruct (Response_bool resp)|];
    reflexivity.
Qed.

(** The loop over a concatenation is the loop over the first part
    followed, unless that raised, by the loop over the second. *)
Lemma map_loop_app (h : option Handler) (l1 l2 : list AsyncRequest)
    (ret : list Response) (tr : list Event) :
  map_loop h (l1 ++ l2) ret tr =
  match map_loop h l1 ret tr with
  | (Returned ret', tr') => map_loop h l2 ret' tr'
  | (Raised e, tr') => (Raised e, tr')
  end.
Proof.
  revert ret tr. induction l1 as [|r l1 IH]; intros ret tr; [done|].
  rewrite <- app_comm_cons, !map_loop_cons.
  destruct (truthy_response r); [apply IH|].
  destruct (handle_failure h r tr) as [[[]|e] tr']; [apply IH|done].
Qed.

(** Without a handler the loop cannot raise: it returns the truthy
    responses in the order of the units and records nothing. *)
Lemma map_loop_no_handler (l : list AsyncRequest) (ret : list Response)
    (tr : list Event) :
  map_loop None l ret tr = (Returned (ret ++ omap truthy_response l), tr).
Proof.
  revert ret. induction l as [|r l IH]; intros ret.
  - cbn. by rewrite app_nil_r.
  - rewrite map_loop_cons. cbn [omap list_omap].
    destruct (truthy_response r) as [resp|].
    + rewrite IH. by rewrite <- app_assoc.
    + rewrite handle_failure_none. apply IH.
Qed.

(** With a handler that returns on every unit that takes the [elif]
    branch, and when each of these units has its exception attribute,
    the loop returns the truthy responses in order and calls the
    handler once per such unit, in order, with the unit and its
    exception. *)
Lemma map_loop_handler (h : Handler) (l : list AsyncRequest)
    (ret : list Response) (tr : list Event) :
  Forall (fun r => truthy_response r = None ->
            exists e v, exception r = Some e /\ h r e = Returned v) l ->
  map_loop (Some h) l ret tr =
  (Returned (ret ++ omap truthy_response l),
   tr ++ List.map (fun p => HandlerCalled (fst p) (snd p))
                  (omap failure_of l)).
Proof.
  intros Hall. revert ret tr.
  induction Hall as [|r l Hr _ IH]; intros ret tr.
  - cbn. by rewrite !app_nil_r.
  - rewrite map_loop_cons. cbn [omap list_omap]. unfold failure_of at 1.
    destruct (truthy_response r) as [resp|] eqn:Ht.
    + rewrite IH. by rewrite <- app_assoc.
    + destruct (Hr eq_refl) as (e & v & He & Hh).
      rewrite (handle_failure_call _ _ _ _ He), Hh, He, IH.
      cbn. by rewrite <- app_assoc.
Qed.

Lemma handler_calls_app (tr1 tr2 : list Event) :
  handler_calls (tr1 ++ tr2) = handler_calls tr1 ++ handler_calls tr2.
Proof. unfold handler_calls. apply omap_app. Qed.

Lemma handler_calls_recorded (calls : list (AsyncRequest * Exception)) :
  handler_calls (List.map (fun p => HandlerCalled (fst p) (snd p)) calls)
  = calls.
Proof.
  induction calls as [|[r e] calls IH]; [done|].
  cbn. unfold handler_calls in IH. by rewrite IH.
Qed.

(** ** Batch mode *)

Section MapProperties.

Variable session_request :
  Value -> string -> string -> gmap string Value -> TransportResult.
Variable cpu_count : option N.

Lemma map_run (requests : list AsyncRequest) (stream : bool)
    (size : option Z) (h : option Handler) (tr : list Event) (n : Z) :
  map_pool cpu_count size tr = (Returned n, tr ++ [PoolCreated n]) ->
  map session_request cpu_count requests stream size h tr =
  map_loop h (List.map (fun r => send session_request r stream) requests) []
           (tr ++ [PoolCreated n; PoolClosed; PoolJoined]).
Proof.
  intros Hp. unfold map, mbind, Py_bind. rewrite Hp.
  unfold Pool_close, Pool_join, emit, Pool_map.
  by rewrite <- !app_assoc.
Qed.

Lemma map_refused (requests : list AsyncRequest) (stream : bool)
    (size : option Z) (h : option Handler) (tr tr' : list Event)
    (e : Exception) :
  map_pool cpu_count size tr = (Raised e, tr') ->
  map session_request cpu_count requests stream size h tr = (Raised e, tr').
Proof. intros Hp. unfold map, mbind, Py_bind. by rewrite Hp. Qed.

(** C7, amended: [map] asks for a pool of [size] processes when [size]
    is given and positive, and for the default pool (one process per
    processing unit of the host, one when that number is unknown) when
    [size] is absent or zero; a negative [size] goes to the pool
    constructor as it is, which raises [ValueError]: no pool is
    created and the exception leaves [map]. *)
Theorem C7_pool_of_map (requests : list AsyncRequest) (stream : bool)
    (size : option Z) (h : option Handler) (tr : list Event) :
  map_pool cpu_count size tr =
    match size with
    | Some n =>
        if 0 <? n then (Returned n, tr ++ [PoolCreated n])
        else if n =? 0
        then (Returned (default_processes cpu_count),
              tr ++ [PoolCreated (default_processes cpu_count)])
        else (Raised ValueError, tr)
    | None =>
        (Returned (default_processes cpu_count),
         tr ++ [PoolCreated (default_processes cpu_count)])
    end
  /\ map session_request cpu_count requests stream size h tr =
    match map_pool cpu_count size tr with
    | (Returned _, tr1) =>
        map_loop h
          (List.map (fun r => send session_request r stream) requests) []
          (tr1 ++ [PoolClosed; PoolJoined])
    | (Raised e, tr1) => (Raised e, tr1)
    end.
Proof.
  split.
  - unfold map_pool, size_truthy. destruct size as [n|].
    + destruct (Z.eqb_spec n 0) as [->|Hn]; cbn [negb].
      * by rewrite Pool_default.
      * rewrite Pool_sized. by destruct (0 <? n).
    + apply Pool_default.
  - unfold map, mbind, Py_bind.
    destruct (map_pool cpu_count size tr) as [[n|e] tr1]; [|done].
    unfold Pool_close, Pool_join, emit, Pool_map.
    by rewrite <- !app_assoc.
Qed.

(** Without a handler [map] returns, for every accepted size, the
    truthy responses of the units in the order of the input. *)
Lemma map_no_handler (requests : list AsyncRequest) (stream : bool)
    (size : option Z) (tr : list Event) :
  size_accepted size = true ->
  exists n,
    map session_request cpu_count requests stream size None tr =
    (Returned (omap truthy_response
                 (List.map (fun r => send session_request r stream) requests)),
     tr ++ [PoolCreated n; PoolClosed; PoolJoined]).
Proof.
  intros Hs.
  destruct (map_pool_accepted cpu_count size tr Hs) as (n & _ & Hp).
  exists n. rewrite (map_run _ _ _ _ _ _ Hp).
  apply map_loop_no_handler.
Qed.

Lemma send_truthy (r : AsyncRequest) (stream : bool) (resp : Response) :
  session_request (session r) (method r) (url r)
          (merged_kwargs r {["stream" := VBool stream]}) = Responded resp ->
  truthy_response (send session_request r stream) =
  if Response_bool resp then Some resp else None.
Proof.
  intros H. unfold send. rewrite (send_responded _ _ _ _ H).
  reflexivity.
Qed.

(** When every unit is answered with a truthy response, the responses
    that [map] keeps are all of them, in the order of the input. *)
Lemma truthy_responses_complete (requests : list AsyncRequest)
    (stream : bool) :
  Forall (fun r => exists resp,
            session_request (session r) (method r) (url r)
                    (merged_kwargs r {["stream" := VBool stream]})
              = Responded resp
            /\ Response_bool resp = true) requests ->
  List.map Some
    (omap truthy_response
       (List.map (fun r => send session_request r stream) requests))
  = List.map (fun r => response (send session_request r stream)) requests.
Proof.
  induction 1 as [|r l (resp & Hr & Ht) _ IH]; [done|].
  cbn. rewrite (send_truthy _ _ _ Hr), Ht. cbn. rewrite IH.
  unfold send at 2. by rewrite (send_responded _ _ _ _ Hr).
Qed.

(** C9: a unit that the transport answers with a falsy response has
    the response in its slot, yet both loops send it to the [elif]
    branch.  Without a handler it is skipped; with a handler the read
    of its [exception] attribute, which [send] did not assign, raises
    [AttributeError] before the handler is called, and the exception
    leaves [map]. *)
Theorem C9_falsy_response_raises_AttributeError (h : Handler)
    (r : AsyncRequest) (stream : bool) (resp : Response) :
  exception r = None ->
  session_request (session r) (method r) (url r)
          (merged_kwargs r {["stream" := VBool stream]}) = Responded resp ->
  Response_bool resp = false ->
  let r' := send session_request r stream in
  response r' = Some resp
  /\ exception r' = None
  /\ (forall rest ret tr,
        map_loop (Some h) (r' :: rest) ret tr = (Raised AttributeError, tr)
        /\ map_loop None (r' :: rest) ret tr = map_loop None rest ret tr)
  /\ (forall rest tr,
        imap_loop (Some h) (r' :: rest) tr = (Raised AttributeError, tr)
        /\ imap_loop None (r' :: rest) tr = imap_loop None rest tr)
  /\ (forall pre post size tr,
        size_accepted size = true ->
        Forall (fun p => truthy_response (send session_request p stream) <> None)
               pre ->
        exists n,
          map session_request cpu_count (pre ++ r :: post) stream size (Some h) tr
          = (Raised AttributeError,
             tr ++ [PoolCreated n; PoolClosed; PoolJoined])).
Proof.
  intros He Hr Hf. cbn zeta.
  assert (Ht : truthy_response (send session_request r stream) = None)
    by (by rewrite (send_truthy _ _ _ Hr), Hf).
  assert (He' : exception (send session_request r stream) = None)
    by (unfold send; by rewrite (send_responded _ _ _ _ Hr)).
  split; [unfold send; by rewrite (send_responded _ _ _ _ Hr)|].
  split; [done|].
  split; [|split].
  - intros rest ret tr. rewrite !map_loop_cons, Ht.
    by rewrite (handle_failure_unset _ _ _ He'), handle_failure_none.
  - intros rest tr. rewrite !imap_loop_cons, Ht.
    by rewrite (handle_failure_unset _ _ _ He'), handle_failure_none.
  - intros pre post size tr Hs Hpre.
    destruct (map_pool_accepted cpu_count size tr Hs) as (n & _ & Hp).
    exists n. rewrite (map_run _ _ _ _ _ _ Hp).
    rewrite List.map_app, map_loop_app. cbn [List.map].
    assert (Hloop : forall ret tr0,
      exists ret', map_loop (Some h)
        (List.map (fun r0 => send session_request r0 stream) pre) ret tr0
        = (Returned ret', tr0)).
    { clear -Hpre. induction Hpre as [|p pre Hp _ IH]; intros ret tr0.
      - by exists ret.
      - cbn [List.map]. rewrite map_loop_cons.
        destruct (truthy_response (send session_request p stream)); [|done].
        apply IH. }
    destruct (Hloop [] (tr ++ [PoolCreated n; PoolClosed; PoolJoined]))
      as [ret' ->].
    rewrite map_loop_cons, Ht.
    by rewrite (handle_failure_unset _ _ _ He').
Qed.

End MapProperties.

(** C9 on the unit that the test transport answers with 404, placed
    between a unit that is answered with 200 and one that fails. *)
Lemma C9_falsy_response_raises_AttributeError_witness :
  response (send demo_transport unit_missing false)
    = Some (mkResponse 404 "not found")
  /\ exists n,
       map demo_transport demo_cpu_count
           ([unit_ok] ++ unit_missing :: [unit_fail]) false None
           (Some recording_handler) []
       = (Raised AttributeError,
          [] ++ [PoolCreated n; PoolClosed; PoolJoined]).
Proof.
  pose proof (C9_falsy_response_raises_AttributeError demo_transport
                demo_cpu_count recording_handler unit_missing false
                (mkResponse 404 "not found")
                eq_refl eq_refl eq_refl) as (Hresp & _ & _ & _ & Hmap).
  split; [exact Hresp|].
  apply Hmap; [reflexivity|].
  repeat constructor. vm_compute. discriminate.
Defined.

Section MapWithHandler.

Variable session_request :
  Value -> string -> string -> gmap string Value -> TransportResult.
Variable cpu_count : option N.

(** When every unit comes back with a truthy response or with its
    exception attribute, and the handler returns on each of the
    latter, [map] returns the truthy responses in order and has called
    the handler exactly once per failed unit, in order, with the unit
    and its exception. *)
Lemma map_with_handler (requests : list AsyncRequest) (stream : bool)
    (size : option Z) (h : Handler) :
  size_accepted size = true ->
  let sent := List.map (fun r => send session_request r stream) requests in
  Forall (fun r => truthy_response r = None ->
            exists e v, exception r = Some e /\ h r e = Returned v) sent ->
  exists tr',
    map session_request cpu_count requests stream size (Some h) []
      = (Returned (omap truthy_response sent), tr')
    /\ handler_calls tr' = omap failure_of sent.
Proof.
  intros Hs sent Hall.
  destruct (map_pool_accepted cpu_count size [] Hs) as (n & _ & Hp).
  eexists. split.
  - rewrite (map_run _ _ _ _ _ _ _ _ Hp).
    fold sent. rewrite (map_loop_handler _ _ _ _ Hall). reflexivity.
  - rewrite handler_calls_app. cbn [app handler_calls omap list_omap].
    apply handler_calls_recorded.
Qed.

End MapWithHandler.

(** The scenario [/ok, /fail, /ok2] with a recording handler: two
    responses, in order, and one call of the handler, for [/fail]. *)
Example map_ok_fail_ok2 :
  let '(o, tr) :=
    demo_map [unit_ok; unit_fail; unit_ok2] false None
             (Some recording_handler) [] in
  o = Returned [mkResponse 200 "/ok"; mkResponse 200 "/ok2"]
  /\ handler_calls tr
     = [(send demo_transport unit_fail false, ConnectionError)]
  /\ pool_shut_down tr = true.
Proof. repeat split; vm_compute; reflexivity. Qed.

(** C1 on the code: three units, each answered by the transport, the
    second one with status 404; [map] returns two responses, not
    three. *)
Theorem C1_map_drops_answered_unit :
  List.map (transport_ok demo_transport false)
           [unit_ok; unit_missing; unit_ok2] = [true; true; true]
  /\ demo_map [unit_ok; unit_missing; unit_ok2] false None None []
     = (Returned [mkResponse 200 "/ok"; mkResponse 200 "/ok2"],
        [PoolCreated 4; PoolClosed; PoolJoined]).
Proof. split; vm_compute; reflexivity. Qed.

(** C2 on the code: three units of which exactly one fails and one is
    answered with status 404, no handler; [map] returns one response,
    not two. *)
Theorem C2_map_returns_fewer_than_answered :
  List.map (transport_ok demo_transport false)
           [unit_ok; unit_fail; unit_missing] = [true; false; true]
  /\ demo_map [unit_ok; unit_fail; unit_missing] false None None []
     = (Returned [mkResponse 200 "/ok"],
        [PoolCreated 4; PoolClosed; PoolJoined]).
Proof. split; vm_compute; reflexivity. Qed.

(** C3 on the code: a unit answered with status 404 followed by a unit
    that fails, with a handler; [map] raises [AttributeError] at the
    first unit and the handler is never called for the failed one, and
    the generator of [imap] does the same on its first [next]. *)
Theorem C3_handler_not_called_for_failed_unit :
  List.map (transport_ok demo_transport false) [unit_missing; unit_fail]
    = [true; false]
  /\ (let '(o, tr) :=
        demo_map [unit_missing; unit_fail] false None
                 (Some recording_handler) [] in
      o = Raised AttributeError /\ handler_calls tr = [])
  /\ (let '(p, g, tr) :=
        demo_imap_next
          (imap [unit_missing; unit_fail] false (Some 5)
                (Some recording_handler)) [] in
      p = Escaped AttributeError /\ gi_state g = GenClosed
      /\ handler_calls tr = []).
Proof. repeat split; vm_compute; reflexivity. Qed.

(** C7 as stated fails for a negative size: [map] does not fall back
    to the default pool, the pool constructor refuses the size. *)
Lemma C7_negative_size_is_not_default :
  ~ (forall (cpu_count : option N) (n : Z) (tr : list Event),
       ~ 0 < n ->
       map_pool cpu_count (Some n) tr = Pool cpu_count None tr).
Proof.
  intros H. specialize (H demo_cpu_count (-1) [] ltac:(lia)).
  vm_compute in H. discriminate H.
Qed.

(** ** Stream mode *)

Lemma pool_events_app (tr1 tr2 : list Event) :
  pool_events (tr1 ++ tr2) = pool_events tr1 ++ pool_events tr2.
Proof. unfold pool_events. apply List.filter_app. Qed.

Lemma handle_failure_pool_events (h : option Handler) (r : AsyncRequest)
    (tr : list Event) :
  pool_events (snd (handle_failure h r tr)) = pool_events tr.
Proof.
  destruct h as [h|]; [|done].
  destruct (exception r) as [e|] eqn:He.
  - rewrite (handle_failure_call _ _ _ _ He). cbn [snd].
    rewrite pool_events_app. cbn. by rewrite app_nil_r.
  - by rewrite (handle_failure_unset _ _ _ He).
Qed.

(** The loop of [imap] leaves the pool alone, and what it keeps for
    later is shorter than what it was given. *)
Lemma imap_loop_spec (h : option Handler) (l : list AsyncRequest)
    (tr : list Event) :
  pool_events (snd (imap_loop h l tr)) = pool_events tr
  /\ forall r rest,
       fst (imap_loop h l tr) = Returned (Some (r, rest)) ->
       (length rest < length l)%nat.
Proof.
  revert tr. induction l as [|u l IH]; intros tr.
  - split; [done|]. cbn. discriminate.
  - rewrite imap_loop_cons.
    destruct (truthy_response u) as [resp|].
    + split; [done|]. cbn. intros r rest [= _ <-]. lia.
    + pose proof (handle_failure_pool_events h u tr) as Hp.
      destruct (handle_failure h u tr) as [[[]|e] tr1]; cbn [snd] in Hp.
      * destruct (IH tr1) as [IH1 IH2]. split; [congruence|].
        intros r rest Hr. specialize (IH2 r rest Hr). cbn. lia.
      * split; [done|]. cbn. discriminate.
Qed.

Section ImapProperties.

Variable session_request :
  Value -> string -> string -> gmap string Value -> TransportResult.
Variable cpu_count : option N.
Variable completion_order : list AsyncRequest -> list AsyncRequest.

(** The scheduler only reorders the finished units. *)
Hypothesis completion_order_perm : forall l, completion_order l ≡ₚ l.

(** One resumption of the body: it parks at a [yield] with fewer units
    to come and the pool as it was, or it ends with the pool closed
    and joined, or an exception leaves it. *)
Lemma imap_resume_spec (g : Generator) (l : list AsyncRequest)
    (tr : list Event) :
  match imap_resume g l tr with
  | (Returned (Some (_, rest)), tr') =>
      (length rest < length l)%nat /\ pool_events tr' = pool_events tr
  | (Returned None, tr') =>
      pool_events tr' = pool_events tr ++ [PoolClosed; PoolJoined]
  | (Raised _, _) => True
  end.
Proof.
  unfold imap_resume, mbind, Py_bind.
  destruct (imap_loop_spec (gi_exception_handler g) l tr) as [Hp Hl].
  destruct (imap_loop (gi_exception_handler g) l tr) as [[[[r rest]|]|e] tr1];
    cbn [fst snd] in *; [|cbn|done].
  - split; [by apply (Hl r)|done].
  - rewrite <- app_assoc, pool_events_app. by rewrite Hp.
Qed.

(** Pulling a parked generator to its end takes at most one [next] per
    unit still to come, plus one. *)
Lemma drain_suspended (fuel : nat) :
  forall (g : Generator) (pending : list AsyncRequest)
         (acc : list Response) (tr : list Event),
    gi_state g = GenSuspended pending ->
    (length pending < fuel)%nat ->
    exists o g' tr',
      drain session_request cpu_count completion_order fuel g acc tr
        = Some (o, g', tr')
      /\ gi_state g' = GenClosed
      /\ (forall res, o = Returned res ->
            pool_events tr' = pool_events tr ++ [PoolClosed; PoolJoined]).
Proof.
  induction fuel as [|fuel IH]; intros g pending acc tr Hg Hlen; [lia|].
  cbn [drain]. unfold next. rewrite Hg.
  pose proof (imap_resume_spec g pending tr) as Hs.
  destruct (imap_resume g pending tr) as [[[[r rest]|]|e] tr1].
  - destruct Hs as [Hlt Hp].
    destruct (IH (with_state g (GenSuspended rest)) rest (acc ++ [r]) tr1
                eq_refl ltac:(lia)) as (o & g' & tr' & Hd & Hc & Hev).
    exists o, g', tr'. split; [exact Hd|]. split; [exact Hc|].
    intros res Hres. rewrite (Hev res Hres). by rewrite Hp.
  - eexists _, _, _. split; [reflexivity|]. split; [done|].
    intros res _. exact Hs.
  - eexists _, _, _. split; [reflexivity|]. split; [done|].
    intros res [=].
Qed.

(** Abandoning a parked generator after some more responses leaves
    the pool as it was when the generator was parked. *)
Lemma take_then_close_suspended (n : nat) :
  forall (g : Generator) (pending : list AsyncRequest)
         (acc res : list Response) (tr tr' : list Event) (g' : Generator),
    gi_state g = GenSuspended pending ->
    take_then_close session_request cpu_count completion_order n g acc tr
      = (Returned res, g', tr') ->
    length res = (length acc + n)%nat ->
    gi_state g' = GenClosed /\ pool_events tr' = pool_events tr.
Proof.
  induction n as [|n IH]; intros g pending acc res tr tr' g' Hg Ht Hlen.
  - cbn in Ht. by injection Ht as <- <- <-.
  - cbn [take_then_close] in Ht. unfold next in Ht. rewrite Hg in Ht.
    pose proof (imap_resume_spec g pending tr) as Hs.
    destruct (imap_resume g pending tr) as [[[[r rest]|]|e] tr1].
    + destruct Hs as [_ Hp].
      destruct (IH (with_state g (GenSuspended rest)) rest _ _ _ _ _
                  eq_refl Ht) as [Hc Hev].
      { rewrite length_app. cbn. lia. }
      split; [exact Hc|congruence].
    + injection Ht as <- <- <-. lia.
    + discriminate Ht.
Qed.

(** C6, amended: a consumer that pulls the sequence to its end gets
    there within one [next] per request plus one; the generator is
    then finished and, unless an exception left its body, the pool has
    been created, closed and joined, in this order.  A consumer that
    takes at least one response and then abandons the generator leaves
    it finished with the pool created and neither closed nor
    joined. *)
Theorem C6_imap_teardown_only_when_exhausted
    (requests : list AsyncRequest) (stream : bool) (size : option Z)
    (h : option Handler) :
  (forall fuel, (length requests < fuel)%nat ->
     exists o g' tr',
       drain session_request cpu_count completion_order fuel
             (imap requests stream size h) [] [] = Some (o, g', tr')
       /\ gi_state g' = GenClosed
       /\ (forall res, o = Returned res -> pool_shut_down tr' = true))
  /\ (forall n res g' tr',
        take_then_close session_request cpu_count completion_order (S n)
                        (imap requests stream size h) [] []
          = (Returned res, g', tr') ->
        length res = S n ->
        gi_state g' = GenClosed /\ pool_left_running tr' = true).
Proof.
  set (done_ := Pool_imap_unordered completion_order
                  (fun r => send session_request r stream) requests).
  assert (Hlen : length done_ = length requests).
  { unfold done_, Pool_imap_unordered.
    rewrite (Permutation_length (completion_order_perm _)).
    apply List.length_map. }
  assert (Hstart : forall tr,
    imap_start session_request cpu_count completion_order
      (imap requests stream size h) tr
    = match Pool cpu_count size tr with
      | (Returned _, tr1) =>
          imap_resume (imap requests stream size h) done_ tr1
      | (Raised e, tr1) => (Raised e, tr1)
      end).
  { intros tr. unfold imap_start, mbind, Py_bind. cbn [gi_size imap].
    by destruct (Pool cpu_count size tr) as [[m|e] tr1]. }
  assert (Hpool : forall m tr1,
    Pool cpu_count size [] = (Returned m, tr1) ->
    pool_events tr1 = [PoolCreated m]).
  { intros m tr1. destruct size as [k|].
    - rewrite Pool_sized. destruct (0 <? k); [|discriminate].
      by intros [= <- <-].
    - rewrite Pool_default. by intros [= <- <-]. }
  split.
  - intros [|fuel] Hfuel; [lia|].
    cbn [drain]. unfold next. cbn [gi_state imap]. rewrite Hstart.
    destruct (Pool cpu_count size []) as [[m|e] tr1] eqn:HP.
    + pose proof (imap_resume_spec (imap requests stream size h) done_ tr1)
        as Hs.
      rewrite (Hpool _ _ eq_refl) in Hs.
      destruct (imap_resume (imap requests stream size h) done_ tr1)
        as [[[[r rest]|]|e] tr2].
      * destruct Hs as [Hlt Hp].
        destruct (drain_suspended fuel
                    (with_state (imap requests stream size h)
                                (GenSuspended rest))
                    rest ([] ++ [r]) tr2 eq_refl ltac:(lia))
          as (o & g' & tr' & Hd & Hc & Hev).
        exists o, g', tr'. split; [exact Hd|]. split; [exact Hc|].
        intros res Hres. unfold pool_shut_down.
        by rewrite (Hev res Hres), Hp.
      * eexists _, _, _. split; [reflexivity|]. split; [done|].
        intros res _. unfold pool_shut_down. by rewrite Hs.
      * eexists _, _, _. split; [reflexivity|]. split; [done|].
        intros res [=].
    + eexists _, _, _. split; [reflexivity|]. split; [done|].
      intros res [=].
  - intros n res g' tr' Ht Hres.
    cbn [take_then_close] in Ht. unfold next in Ht.
    cbn [gi_state imap] in Ht. rewrite Hstart in Ht.
    destruct (Pool cpu_count size []) as [[m|e] tr1] eqn:HP;
      [|discriminate Ht].
    pose proof (imap_resume_spec (imap requests stream size h) done_ tr1)
      as Hs.
    rewrite (Hpool _ _ eq_refl) in Hs.
    destruct (imap_resume (imap requests stream size h) done_ tr1)
      as [[[[r rest]|]|e] tr2].
    + destruct Hs as [_ Hp].
      destruct (take_then_close_suspended n
                  (with_state (imap requests stream size h)
                              (GenSuspended rest))
                  rest _ _ _ _ _ eq_refl Ht) as [Hc Hev].
      { cbn. lia. }
      split; [exact Hc|]. unfold pool_left_running.
      by rewrite Hev, Hp.
    + injection Ht as <- <- <-. discriminate Hres.
    + discriminate Ht.
Qed.

End ImapProperties.

(** C6 on two units that both succeed and finish in the reverse of the
    input order: the consumer that exhausts the stream, and the one
    that stops after the first response. *)
Lemma C6_imap_teardown_only_when_exhausted_witness :
  (exists o g' tr',
     drain demo_transport demo_cpu_count reversed 3
           (imap [unit_ok; unit_ok2] false (Some 2) None) [] []
       = Some (o, g', tr')
     /\ gi_state g' = GenClosed
     /\ (forall res, o = Returned res -> pool_shut_down tr' = true))
  /\ (forall res g' tr',
        take_then_close demo_transport demo_cpu_count reversed 1
                        (imap [unit_ok; unit_ok2] false (Some 2) None) [] []
          = (Returned res, g', tr') ->
        length res = 1%nat ->
        gi_state g' = GenClosed /\ pool_left_running tr' = true).
Proof.
  destruct (C6_imap_teardown_only_when_exhausted demo_transport
              demo_cpu_count reversed
              (fun l => Permutation_sym (Permutation_rev l))
              [unit_ok; unit_ok2] false (Some 2) None) as [Hdrain Hclose].
  split.
  - apply Hdrain. cbn. lia.
  - apply Hclose.
Defined.

(** C6 as stated fails for the consumer that takes one response of two
    and abandons the generator: the generator is finished and the pool
    has been neither closed nor joined. *)
Lemma C6_abandoned_stream_leaves_pool_running :
  ~ (forall session_request cpu_count completion_order requests stream
            size h
            (n : nat) o g' tr',
       (forall l, completion_order l ≡ₚ l) ->
       (0 < n)%nat ->
       take_then_close session_request cpu_count completion_order n
                       (imap requests stream size h) [] []
         = (o, g', tr') ->
       gi_state g' = GenClosed /\ pool_shut_down tr' = true).
Proof.
  intros H.
  pose (run := take_then_close demo_transport demo_cpu_count in_order 1
                 (imap [unit_ok; unit_ok2] false (Some 2) None) [] []).
  destruct (H demo_transport demo_cpu_count in_order [unit_ok; unit_ok2]
              false (Some 2) None 1%nat (fst (fst run)) (snd (fst run))
              (snd run) (fun l => Permutation_refl l) ltac:(lia) eq_refl)
    as [_ Hdown].
  vm_compute in Hdown. discriminate Hdown.
Qed.

(** * Further properties of the module *)

(** ** Construction *)

(** X1: the constructor keeps the session the caller passes unless it
    is [None], makes a new session when [session] is [None] or absent,
    stores method and URL as given, and leaves neither [session] nor
    [callback] among the stored options. *)
Theorem X1_init_session (sid : nat) (m u : string)
    (kw : gmap string Value) :
  let r := AsyncRequest_init sid m u kw in
  session r = match kw !! "session" with
              | Some v => if is_None v then VSession sid else v
              | None => VSession sid
              end
  /\ method r = m /\ url r = u
  /\ kwargs r !! "session" = None
  /\ kwargs r !! "callback" = None.
Proof.
  cbn zeta. rewrite init_kwargs. cbn zeta.
  assert (Hs : session (AsyncRequest_init sid m u kw) =
               if is_None (default VNone (kw !! "session"))
               then VSession sid else default VNone (kw !! "session")).
  { unfold AsyncRequest_init, pop. cbn.
    by destruct (truthy (default VNone (delete "session" kw !! "callback"))). }
  assert (Hm : method (AsyncRequest_init sid m u kw) = m
               /\ url (AsyncRequest_init sid m u kw) = u).
  { unfold AsyncRequest_init, pop. cbn.
    by destruct (truthy (default VNone (delete "session" kw !! "callback"))). }
  split; [|split; [apply Hm|split; [apply Hm|]]].
  - rewrite Hs. by destruct (kw !! "session") as [v|].
  - destruct (truthy _); split;
      rewrite ?lookup_insert_ne by done;
      rewrite ?lookup_delete_eq; try done;
      by rewrite lookup_delete_ne, lookup_delete_eq.
Qed.

(** X2: every option other than [session], [callback] and [hooks] is
    stored by the constructor exactly as the caller passed it, present
    or absent. *)
Theorem X2_init_keeps_other_options (sid : nat) (m u : string)
    (kw : gmap string Value) (k : string) :
  k <> "session" -> k <> "callback" -> k <> "hooks" ->
  kwargs (AsyncRequest_init sid m u kw) !! k = kw !! k.
Proof.
  intros Hs Hc Hh. rewrite init_kwargs. cbn zeta.
  destruct (truthy _); rewrite ?lookup_insert_ne by done;
    by rewrite !lookup_delete_ne.
Qed.

Lemma X2_init_keeps_other_options_witness :
  kwargs (get 0 "/ok" {["timeout" := VInt 5; "callback" := VCallable "cb"]})
    !! "timeout"
  = ({["timeout" := VInt 5; "callback" := VCallable "cb"]}
       : gmap string Value) !! "timeout".
Proof.
  apply (X2_init_keeps_other_options 0 "GET" "/ok"); discriminate.
Defined.

(** ** Sending *)

Section SendMore.

Variable session_request :
  Value -> string -> string -> gmap string Value -> TransportResult.


(** X4: when the transport answers, [send] stores the response and
    touches nothing else: the failure slot keeps what it held (an
    exception captured by an earlier call stays), the descriptor is
    intact, and on the object store the receiver is returned and is the
    only object that changes. *)
Theorem X4_send_stores_response (self : AsyncRequest)
    (kw : gmap string Value) (resp : Response) :
  session_request (session self) (method self) (url self)
                  (merged_kwargs self kw) = Responded resp ->
  let self' := AsyncRequest_send session_request self kw in
  response self' = Some resp
  /\ exception self' = exception self
  /\ method self' = method self /\ url self' = url self
  /\ session self' = session self /\ kwargs self' = kwargs self
  /\ (forall (ref : nat) (heap : gmap nat AsyncRequest),
        heap !! ref = Some self ->
        send_at session_request ref kw heap
          = Some (ref, <[ref := self']> heap)
        /\ forall other, other <> ref ->
             <[ref := self']> heap !! other = heap !! other).
Proof.
  intros H. cbn zeta. rewrite (send_responded _ _ _ _ H).
  repeat split; try done.
  - unfold send_at.
    match goal with Hh : _ !! _ = Some self |- _ => rewrite Hh end.
    by rewrite (send_responded _ _ _ _ H).
  - intros other Hne. by rewrite lookup_insert_ne.
Qed.

(** X5: overrides are for one call only.  Whatever the first call was
    given and however it ended, the stored options are unchanged, so a
    later call without overrides hands the transport the stored
    options, and a later call with overrides sees them laid over the
    stored options, not over those of the first call. *)
Theorem X5_overrides_are_not_kept (self : AsyncRequest)
    (kw1 kw2 : gmap string Value) :
  let self' := AsyncRequest_send session_request self kw1 in
  kwargs self' = kwargs self
  /\ merged_kwargs self' ∅ = kwargs self
  /\ merged_kwargs self' kw2 = merged_kwargs self kw2.
Proof.
  cbn zeta.
  assert (Hk : kwargs (AsyncRequest_send session_request self kw1)
               = kwargs self)
    by (unfold AsyncRequest_send; by destruct (session_request _ _ _ _)).
  split; [exact Hk|]. unfold merged_kwargs, update. rewrite Hk.
  split; [|done].
  by rewrite (left_id_L ∅ (∪)), (right_id_L ∅ (∪)).
Qed.

End SendMore.

Lemma X4_send_stores_response_witness :
  response (AsyncRequest_send demo_transport unit_ok
              {["stream" := VBool false]})
  = Some (mkResponse 200 "/ok").
Proof.
  apply (X4_send_stores_response demo_transport unit_ok
           {["stream" := VBool false]} (mkResponse 200 "/ok")).
  vm_compute. reflexivity.
Defined.

(** ** More on the loop of [map] *)

Lemma map_loop_handled (h : option Handler) (l : list AsyncRequest)
    (ret : list Response) (tr : list Event) :
  Forall (handled h) l ->
  map_loop h l ret tr
  = (Returned (ret ++ omap truthy_response l), tr ++ reported h l).
Proof.
  destruct h as [f|]; intros Hall.
  - apply map_loop_handler. exact Hall.
  - rewrite map_loop_no_handler. cbn. by rewrite app_nil_r.
Qed.

(** Whenever the loop returns, it returns the truthy responses in the
    order of the units. *)
Lemma map_loop_returns (h : option Handler) (l : list AsyncRequest) :
  forall (ret res : list Response) (tr tr' : list Event),
    map_loop h l ret tr = (Returned res, tr') ->
    res = ret ++ omap truthy_response l.
Proof.
  induction l as [|r l IH]; intros ret res tr tr'.
  - cbn. intros [= <- _]. by rewrite app_nil_r.
  - rewrite map_loop_cons. cbn [omap list_omap].
    destruct (truthy_response r) as [resp|].
    + intros H. rewrite (IH _ _ _ _ H). by rewrite <- app_assoc.
    + destruct (handle_failure h r tr) as [[[]|e] tr1]; [apply IH|done].
Qed.

(** The loop adds nothing but calls of the handler to the trace. *)
Lemma map_loop_trace (h : option Handler) (l : list AsyncRequest) :
  forall (ret : list Response) (tr : list Event),
    exists calls,
      snd (map_loop h l ret tr) = tr ++ calls
      /\ Forall (fun ev => is_HandlerCalled ev = true) calls.
Proof.
  induction l as [|r l IH]; intros ret tr.
  - exists []. by rewrite app_nil_r.
  - rewrite map_loop_cons.
    destruct (truthy_response r) as [resp|]; [apply IH|].
    destruct h as [f|].
    + destruct (exception r) as [e|] eqn:He.
      * rewrite (handle_failure_call _ _ _ _ He).
        destruct (f r e) as [v|x].
        -- destruct (IH ret (tr ++ [HandlerCalled r e]))
             as (calls & Hc & Hall).
           exists (HandlerCalled r e :: calls).
           split; [by rewrite Hc, <- app_assoc|by constructor].
        -- exists [HandlerCalled r e]. split; [done|by repeat constructor].
      * rewrite (handle_failure_unset _ _ _ He).
        exists []. by rewrite app_nil_r.
    + rewrite handle_failure_none. apply IH.
Qed.

Lemma omap_truthy_response_length (l : list AsyncRequest) :
  (length (omap truthy_response l) <= length l)%nat.
Proof.
  induction l as [|r l IH]; [done|]. cbn.
  destruct (truthy_response r); cbn; lia.
Qed.

(** ** More on batch mode *)

Section MapMore.

Variable session_request :
  Value -> string -> string -> gmap string Value -> TransportResult.
Variable cpu_count : option N.

(** X6: whenever [map] returns, what it returns is the truthy
    responses of the sent units in the order of the input, whatever
    the handler is and whatever it returns; so never more responses
    than requests. *)
Theorem X6_map_returns_truthy_responses (requests : list AsyncRequest)
    (stream : bool) (size : option Z) (h : option Handler)
    (tr tr' : list Event) (res : list Response) :
  map session_request cpu_count requests stream size h tr
    = (Returned res, tr') ->
  res = omap truthy_response
          (List.map (fun r => send session_request r stream) requests)
  /\ (length res <= length requests)%nat.
Proof.
  unfold map, mbind, Py_bind, Pool_close, Pool_join, emit, Pool_map.
  destruct (map_pool cpu_count size tr) as [[n|e] tr1]; [|done].
  intros H. apply map_loop_returns in H. cbn in H. subst res.
  split; [done|].
  etransitivity; [apply omap_truthy_response_length|].
  by rewrite List.length_map.
Qed.

(** X7: with a size that the pool accepts, [map] has created, closed
    and joined its pool before the result loop starts, whether it then
    returns or an exception leaves it: the trace is these three events
    followed by calls of the handler only. *)
Theorem X7_map_shuts_pool_down_first (requests : list AsyncRequest)
    (stream : bool) (size : option Z) (h : option Handler) :
  size_accepted size = true ->
  exists n calls,
    snd (map session_request cpu_count requests stream size h [])
      = [PoolCreated n; PoolClosed; PoolJoined] ++ calls
    /\ Forall (fun ev => is_HandlerCalled ev = true) calls
    /\ pool_shut_down
         (snd (map session_request cpu_count requests stream size h []))
       = true.
Proof.
  intros Hs.
  destruct (map_pool_accepted cpu_count size [] Hs) as (n & _ & Hp).
  rewrite (map_run _ _ _ _ _ _ _ _ Hp).
  destruct (map_loop_trace h
              (List.map (fun r => send session_request r stream) requests)
              [] ([] ++ [PoolCreated n; PoolClosed; PoolJoined]))
    as (calls & Hc & Hall).
  exists n, calls. rewrite Hc. split; [done|]. split; [exact Hall|].
  unfold pool_shut_down. rewrite pool_events_app.
  assert (Hnone : pool_events calls = []).
  { clear Hc. induction Hall as [|ev calls Hev _ IH]; [done|].
    unfold pool_events in *. cbn. by destruct ev. }
  by rewrite Hnone.
Qed.

(** X8: when every sent unit has a truthy response or a captured
    exception and the handler returns on the latter, [map] returns the
    truthy responses in input order and, after the pool is joined,
    has called the handler exactly once per other unit, in input
    order, with the unit as [send] returned it and its exception. *)
Theorem X8_map_reports_each_failure_once (requests : list AsyncRequest)
    (stream : bool) (size : option Z) (h : Handler) :
  size_accepted size = true ->
  let sent := List.map (fun r => send session_request r stream) requests in
  Forall (handled (Some h)) sent ->
  exists n,
    map session_request cpu_count requests stream size (Some h) []
    = (Returned (omap truthy_response sent),
       [PoolCreated n; PoolClosed; PoolJoined]
         ++ calls_recorded (omap failure_of sent))
    /\ (length (omap truthy_response sent)
        + length (omap failure_of sent) = length requests)%nat.
Proof.
  intros Hs sent Hall.
  destruct (map_pool_accepted cpu_count size [] Hs) as (n & _ & Hp).
  exists n. split.
  - rewrite (map_run _ _ _ _ _ _ _ _ Hp). fold sent.
    by rewrite (map_loop_handled _ _ _ _ Hall).
  - replace (length requests) with (length sent)
      by (unfold sent; apply List.length_map).
    clear Hp. induction Hall as [|r l Hr _ IH]; [done|].
    cbn [omap list_omap]. unfold failure_of at 1.
    destruct (truthy_response r) as [resp|] eqn:Ht.
    + cbn. by rewrite IH.
    + destruct (Hr Ht) as (e & v & He & _). rewrite He.
      cbn. rewrite <- IH. lia.
Qed.

(** X9: an exception raised by the handler leaves [map]: the responses
    collected so far are lost and the units after the failed one are
    not looked at. *)
Theorem X9_map_handler_exception_propagates (h : Handler)
    (pre post : list AsyncRequest) (r : AsyncRequest) (stream : bool)
    (size : option Z) (e x : Exception) :
  size_accepted size = true ->
  Forall (fun p => truthy_response (send session_request p stream) <> None)
         pre ->
  truthy_response (send session_request r stream) = None ->
  exception (send session_request r stream) = Some e ->
  h (send session_request r stream) e = Raised x ->
  exists n,
    map session_request cpu_count (pre ++ r :: post) stream size (Some h) []
    = (Raised x,
       [PoolCreated n; PoolClosed; PoolJoined;
        HandlerCalled (send session_request r stream) e]).
Proof.
  intros Hs Hpre Ht He Hx.
  destruct (map_pool_accepted cpu_count size [] Hs) as (n & _ & Hp).
  exists n. rewrite (map_run _ _ _ _ _ _ _ _ Hp).
  rewrite List.map_app, map_loop_app. cbn [List.map].
  rewrite (map_loop_handled (Some h)).
  - rewrite map_loop_cons, Ht, (handle_failure_call _ _ _ _ He), Hx.
    cbn. replace (omap failure_of _) with (@nil (AsyncRequest * Exception));
      [done|].
    induction Hpre as [|p pre Hp' _ IH]; [done|].
    cbn. unfold failure_of at 1.
    by destruct (truthy_response (send session_request p stream)).
  - clear -Hpre. induction Hpre as [|p pre Hp' _ IH]; [done|].
    cbn. constructor; [|exact IH]. intros Hn. by destruct Hp'.
Qed.

(** X10: when the transport answers every request with a truthy
    response, [map] returns as many responses as there are requests,
    the response of each request at the position of the request,
    whether or not a handler is given; the handler is not called. *)
Theorem X10_map_all_truthy (requests : list AsyncRequest) (stream : bool)
    (size : option Z) (h : option Handler) :
  size_accepted size = true ->
  Forall (fun r => exists resp,
            session_request (session r) (method r) (url r)
                            (merged_kwargs r {["stream" := VBool stream]})
              = Responded resp
            /\ Response_bool resp = true) requests ->
  exists n res,
    map session_request cpu_count requests stream size h []
    = (Returned res, [PoolCreated n; PoolClosed; PoolJoined])
    /\ length res = length requests
    /\ List.map Some res
       = List.map (fun r => response (send session_request r stream))
                  requests.
Proof.
  intros Hs Hall.
  destruct (map_pool_accepted cpu_count size [] Hs) as (n & _ & Hp).
  set (sent := List.map (fun r => send session_request r stream) requests).
  assert (Hok : Forall (fun r => truthy_response r <> None) sent).
  { unfold sent. clear -Hall.
    induction Hall as [|r l (resp & Hr & Ht) _ IH]; [done|].
    cbn. constructor; [|exact IH].
    by rewrite (send_truthy _ _ _ _ Hr), Ht. }
  exists n, (omap truthy_response sent).
  assert (Hcomplete := truthy_responses_complete _ _ _ Hall).
  fold sent in Hcomplete.
  split; [|split; [|exact Hcomplete]].
  - rewrite (map_run _ _ _ _ _ _ _ _ Hp). fold sent.
    rewrite (map_loop_handled h).
    + replace (reported h sent) with (@nil Event); [done|].
      destruct h as [f|]; [|done]. cbn. unfold calls_recorded.
      replace (omap failure_of sent)
        with (@nil (AsyncRequest * Exception)); [done|].
      clear -Hok. induction Hok as [|r l Hr _ IH]; [done|].
      cbn. unfold failure_of at 1.
      by destruct (truthy_response r).
    + clear -Hok. induction Hok as [|r l Hr _ IH]; [done|].
      constructor; [|exact IH]. intros Hn. by destruct Hr.
  - apply (f_equal length) in Hcomplete.
    by rewrite !List.length_map in Hcomplete.
Qed.

End MapMore.

Lemma X6_map_returns_truthy_responses_witness :
  [mkResponse 200 "/ok"]
  = omap truthy_response
      (List.map (fun r => send demo_transport r false)
                [unit_ok; unit_fail; unit_missing])
  /\ (length [mkResponse 200 "/ok"]
      <= length [unit_ok; unit_fail; unit_missing])%nat.
Proof.
  apply (X6_map_returns_truthy_responses demo_transport demo_cpu_count
           [unit_ok; unit_fail; unit_missing] false None None []
           [PoolCreated 4; PoolClosed; PoolJoined]).
  vm_compute. reflexivity.
Defined.

Lemma X7_map_shuts_pool_down_first_witness :
  exists n calls,
    snd (map demo_transport demo_cpu_count [unit_ok; unit_fail] false
             (Some 2) (Some raising_handler) [])
      = [PoolCreated n; PoolClosed; PoolJoined] ++ calls
    /\ Forall (fun ev => is_HandlerCalled ev = true) calls
    /\ pool_shut_down
         (snd (map demo_transport demo_cpu_count [unit_ok; unit_fail] false
                   (Some 2) (Some raising_handler) []))
       = true.
Proof.
  apply (X7_map_shuts_pool_down_first demo_transport demo_cpu_count
           [unit_ok; unit_fail] false (Some 2) (Some raising_handler)).
  reflexivity.
Defined.

Lemma X8_map_reports_each_failure_once_witness :
  let sent := List.map (fun r => send demo_transport r false)
                       [unit_ok; unit_fail; unit_ok2] in
  exists n,
    map demo_transport demo_cpu_count [unit_ok; unit_fail; unit_ok2] false
        None (Some recording_handler) []
    = (Returned (omap truthy_response sent),
       [PoolCreated n; PoolClosed; PoolJoined]
         ++ calls_recorded (omap failure_of sent))
    /\ (length (omap truthy_response sent)
        + length (omap failure_of sent)
        = length [unit_ok; unit_fail; unit_ok2])%nat.
Proof.
  apply (X8_map_reports_each_failure_once demo_transport demo_cpu_count
           [unit_ok; unit_fail; unit_ok2] false None recording_handler).
  - reflexivity.
  - handled_by_evaluation.
Defined.

Lemma X9_map_handler_exception_propagates_witness :
  exists n,
    map demo_transport demo_cpu_count ([unit_ok] ++ unit_fail :: [unit_ok2])
        false None (Some raising_handler) []
    = (Raised (mkException "RuntimeError" "handler failed"),
       [PoolCreated n; PoolClosed; PoolJoined;
        HandlerCalled (send demo_transport unit_fail false)
                      ConnectionError]).
Proof.
  apply (X9_map_handler_exception_propagates demo_transport demo_cpu_count
           raising_handler [unit_ok] [unit_ok2] unit_fail false None
           ConnectionError (mkException "RuntimeError" "handler failed")).
  - reflexivity.
  - repeat constructor. vm_compute. discriminate.
  - vm_compute. reflexivity.
  - vm_compute. reflexivity.
  - reflexivity.
Defined.

Lemma X10_map_all_truthy_witness :
  exists n res,
    map demo_transport demo_cpu_count [unit_ok; unit_ok2] false None
        (Some recording_handler) []
    = (Returned res, [PoolCreated n; PoolClosed; PoolJoined])
    /\ length res = length [unit_ok; unit_ok2]
    /\ List.map Some res
       = List.map (fun r => response (send demo_transport r false))
                  [unit_ok; unit_ok2].
Proof.
  apply (X10_map_all_truthy demo_transport demo_cpu_count
           [unit_ok; unit_ok2] false None (Some recording_handler)).
  - reflexivity.
  - repeat constructor; eexists; split; vm_compute; reflexivity.
Defined.

(** ** More on stream mode *)

Lemma reported_cons_truthy (h : option Handler) (r : AsyncRequest)
    (l : list AsyncRequest) (resp : Response) :
  truthy_response r = Some resp -> reported h (r :: l) = reported h l.
Proof.
  intros Ht. destruct h as [f|]; [|done].
  cbn. unfold failure_of at 1. by rewrite Ht.
Qed.

(** The loop of [imap] on units it gets past: at a [yield] it has
    recorded the calls for the units it skipped and keeps the rest of
    the responses and of the calls for later. *)
Lemma imap_loop_handled (h : option Handler) (l : list AsyncRequest) :
  forall tr : list Event,
    Forall (handled h) l ->
    match imap_loop h l tr with
    | (Returned (Some (r, rest)), tr') =>
        exists ev,
          tr' = tr ++ ev
          /\ reported h l = ev ++ reported h rest
          /\ omap truthy_response l = r :: omap truthy_response rest
          /\ Forall (handled h) rest
          /\ (length rest < length l)%nat
    | (Returned None, tr') =>
        omap truthy_response l = [] /\ tr' = tr ++ reported h l
    | (Raised _, _) => False
    end.
Proof.
  induction l as [|u l IH]; intros tr Hall.
  - cbn. split; [done|]. destruct h; cbn; by rewrite app_nil_r.
  - apply Forall_cons in Hall as [Hu Hall]. rewrite imap_loop_cons.
    destruct (truthy_response u) as [resp|] eqn:Ht.
    + exists []. rewrite app_nil_r, (reported_cons_truthy _ _ _ _ Ht).
      cbn [omap list_omap]. rewrite Ht. repeat split; try done. cbn. lia.
    + assert (Hstep : exists ev,
                handle_failure h u tr = (Returned tt, tr ++ ev)
                /\ reported h (u :: l) = ev ++ reported h l).
      { destruct h as [f|].
        - destruct (Hu Ht) as (e & v & He & Hf).
          exists [HandlerCalled u e].
          rewrite (handle_failure_call _ _ _ _ He), Hf. split; [done|].
          cbn. unfold failure_of at 1. by rewrite Ht, He.
        - exists []. by rewrite app_nil_r. }
      destruct Hstep as (ev & -> & Hrep).
      specialize (IH (tr ++ ev) Hall).
      destruct (imap_loop h l (tr ++ ev)) as [[[[r rest]|]|e] tr1];
        [|cbn [omap list_omap]; rewrite Ht|done].
      * destruct IH as (ev' & -> & Hrep' & Hresp & Hrest & Hlen).
        exists (ev ++ ev'). cbn [omap list_omap]. rewrite Ht.
        repeat split; try done.
        -- by rewrite app_assoc.
        -- by rewrite Hrep, Hrep', app_assoc.
        -- cbn. lia.
      * destruct IH as [Hnone ->]. split; [done|].
        by rewrite Hrep, app_assoc.
Qed.

Lemma pool_events_reported (h : option Handler) (l : list AsyncRequest) :
  pool_events (reported h l) = [].
Proof.
  destruct h as [f|]; [|done]. unfold reported, calls_recorded.
  generalize (omap failure_of l). intros calls.
  induction calls as [|c calls IH]; [done|exact IH].
Qed.

Lemma handler_calls_reported (h : option Handler) (l : list AsyncRequest) :
  handler_calls (reported h l)
  = match h with Some _ => omap failure_of l | None => [] end.
Proof. destruct h; [apply handler_calls_recorded|done]. Qed.

Lemma next_finished (session_request :
      Value -> string -> string -> gmap string Value -> TransportResult)
    (cpu_count : option N)
    (completion_order : list AsyncRequest -> list AsyncRequest)
    (g g' : Generator) (tr tr' : list Event) (p : Pulled) :
  next session_request cpu_count completion_order g tr = (p, g', tr') ->
  match p with
  | Yielded _ => True
  | Exhausted | Escaped _ => gi_state g' = GenClosed
  end.
Proof.
  unfold next. destruct (gi_state g) eqn:Hg.
  - destruct (imap_start _ _ _ g tr) as [[[[r rest]|]|e] tr1];
      by intros [= <- <- <-].
  - destruct (imap_resume g pending tr) as [[[[r rest]|]|e] tr1];
      by intros [= <- <- <-].
  - by intros [= <- <- <-].
Qed.

Section ImapMore.

Variable session_request :
  Value -> string -> string -> gmap string Value -> TransportResult.
Variable cpu_count : option N.
Variable completion_order : list AsyncRequest -> list AsyncRequest.
Hypothesis completion_order_perm : forall l, completion_order l ≡ₚ l.

(** Pulling a parked generator to its end when the loop gets past
    every unit still to come. *)
Lemma drain_handled (fuel : nat) :
  forall (g : Generator) (pending : list AsyncRequest)
         (acc : list Response) (tr : list Event),
    gi_state g = GenSuspended pending ->
    Forall (handled (gi_exception_handler g)) pending ->
    (length pending < fuel)%nat ->
    exists g',
      drain session_request cpu_count completion_order fuel g acc tr
      = Some (Returned (acc ++ omap truthy_response pending), g',
              tr ++ reported (gi_exception_handler g) pending
                 ++ [PoolClosed; PoolJoined])
      /\ gi_state g' = GenClosed.
Proof.
  induction fuel as [|fuel IH]; intros g pending acc tr Hg Hall Hlen;
    [lia|].
  cbn [drain]. unfold next. rewrite Hg.
  unfold imap_resume, mbind, Py_bind.
  pose proof (imap_loop_handled (gi_exception_handler g) pending tr Hall)
    as Hs.
  destruct (imap_loop (gi_exception_handler g) pending tr)
    as [[[[r rest]|]|e] tr1]; [| |done].
  - destruct Hs as (ev & -> & Hrep & Hresp & Hrest & Hlt).
    destruct (IH (with_state g (GenSuspended rest)) rest (acc ++ [r])
                (tr ++ ev) eq_refl Hrest ltac:(lia)) as (g' & Hd & Hc).
    exists g'. split; [|exact Hc].
    unfold mret, Py_ret. cbv beta iota zeta. rewrite Hd.
    cbn [gi_exception_handler with_state].
    by rewrite Hresp, Hrep, <- !app_assoc.
  - destruct Hs as [Hnone ->]. eexists. split.
    + unfold Pool_close, Pool_join, emit, mret, Py_ret.
      cbv beta iota zeta.
      by rewrite Hnone, app_nil_r, <- !app_assoc.
    + reflexivity.
Qed.

(** Pulling [imap] to its end from the start, when the pool accepts
    the size and the loop gets past every unit. *)
Lemma imap_drain_handled (requests : list AsyncRequest) (stream : bool)
    (size : option Z) (h : option Handler) (fuel : nat) :
  imap_size_accepted size = true ->
  let sent := List.map (fun r => send session_request r stream) requests in
  Forall (handled h) sent ->
  (length requests < fuel)%nat ->
  exists n g',
    Pool cpu_count size [] = (Returned n, [PoolCreated n])
    /\ drain session_request cpu_count completion_order fuel
             (imap requests stream size h) [] []
       = Some (Returned (omap truthy_response (completion_order sent)), g',
               [PoolCreated n] ++ reported h (completion_order sent)
                 ++ [PoolClosed; PoolJoined])
    /\ gi_state g' = GenClosed.
Proof.
  intros Hs sent Hall Hfuel.
  destruct fuel as [|fuel]; [lia|].
  assert (Hpool : exists n,
            Pool cpu_count size [] = (Returned n, [PoolCreated n])).
  { destruct size as [k|].
    - exists k. rewrite Pool_sized. cbn in Hs. by rewrite Hs.
    - exists (default_processes cpu_count). apply Pool_default. }
  destruct Hpool as [n Hpool]. exists n.
  assert (Hall' : Forall (handled h) (completion_order sent))
    by (by rewrite (completion_order_perm sent)).
  assert (Hlen : length (completion_order sent) = length requests).
  { rewrite (Permutation_length (completion_order_perm sent)).
    apply List.length_map. }
  cbn [drain]. unfold next. cbn [gi_state imap].
  unfold imap_start, mbind, Py_bind. cbn [gi_size imap]. rewrite Hpool.
  unfold Pool_imap_unordered. cbn [gi_stream gi_requests imap]. fold sent.
  unfold imap_resume, mbind, Py_bind. cbn [gi_exception_handler imap].
  pose proof (imap_loop_handled h (completion_order sent)
                [PoolCreated n] Hall') as Hl.
  destruct (imap_loop h (completion_order sent) [PoolCreated n])
    as [[[[r rest]|]|e] tr1]; [| |done].
  - destruct Hl as (ev & -> & Hrep & Hresp & Hrest & Hlt).
    destruct (drain_handled fuel
                (with_state (imap requests stream size h)
                            (GenSuspended rest))
                rest ([] ++ [r]) ([PoolCreated n] ++ ev)
                eq_refl Hrest ltac:(lia)) as (g' & Hd & Hc).
    exists g'. split; [done|]. split; [|exact Hc].
    unfold mret, Py_ret. cbv beta iota zeta. rewrite Hd.
    cbn [gi_exception_handler with_state imap].
    by rewrite Hresp, Hrep, <- !app_assoc.
  - destruct Hl as [Hnone ->]. eexists. split; [done|]. split.
    + unfold Pool_close, Pool_join, emit, mret, Py_ret.
      cbv beta iota zeta. by rewrite Hnone, <- !app_assoc.
    + reflexivity.
Qed.

(** X11: a consumer that pulls [imap] to its end, when the loop gets
    past every unit (truthy response, or captured exception and a
    handler that returns), receives the truthy responses in the order
    in which the units finish, a reordering of those of the input; the
    handler has been called exactly once per other unit, and the pool
    has been created, closed and joined. *)
Theorem X11_imap_drained (requests : list AsyncRequest) (stream : bool)
    (size : option Z) (h : option Handler) (fuel : nat) :
  imap_size_accepted size = true ->
  let sent := List.map (fun r => send session_request r stream) requests in
  Forall (handled h) sent ->
  (length requests < fuel)%nat ->
  exists g' tr',
    drain session_request cpu_count completion_order fuel
          (imap requests stream size h) [] []
    = Some (Returned (omap truthy_response (completion_order sent)),
            g', tr')
    /\ omap truthy_response (completion_order sent)
         ≡ₚ omap truthy_response sent
    /\ handler_calls tr'
         ≡ₚ match h with
            | Some _ => omap failure_of sent
            | None => []
            end
    /\ pool_shut_down tr' = true
    /\ gi_state g' = GenClosed.
Proof.
  intros Hs sent Hall Hfuel.
  destruct (imap_drain_handled requests stream size h fuel Hs Hall Hfuel)
    as (n & g' & _ & Hd & Hc).
  subst sent. exists g'. eexists. split; [exact Hd|].
  split; [apply omap_Permutation, completion_order_perm|].
  split; [|split; [|exact Hc]].
  - rewrite !handler_calls_app, handler_calls_reported. cbn.
    rewrite app_nil_r. destruct h; [|done].
    apply omap_Permutation, completion_order_perm.
  - unfold pool_shut_down.
    by rewrite !pool_events_app, pool_events_reported.
Qed.

(** X12: without a handler and with a positive or absent size, pulling
    [imap] to its end gives the responses that [map] returns for the
    same requests, in the order in which the units finish: a
    reordering of the result of [map]. *)
Theorem X12_imap_yields_what_map_returns (requests : list AsyncRequest)
    (stream : bool) (size : option Z) (fuel : nat) :
  imap_size_accepted size = true ->
  (length requests < fuel)%nat ->
  exists res_map res_imap tr_map g' tr_imap,
    map session_request cpu_count requests stream size None []
      = (Returned res_map, tr_map)
    /\ drain session_request cpu_count completion_order fuel
             (imap requests stream size None) [] []
       = Some (Returned res_imap, g', tr_imap)
    /\ res_imap ≡ₚ res_map
    /\ tr_imap = tr_map.
Proof.
  intros Hs Hfuel.
  set (sent := List.map (fun r => send session_request r stream) requests).
  assert (Hall : Forall (handled None) sent).
  { clear. induction sent; constructor; [done|assumption]. }
  destruct (imap_drain_handled requests stream size None fuel Hs Hall Hfuel)
    as (n & g' & HP & Hd & Hc).
  assert (Hp : map_pool cpu_count size [] = (Returned n, [PoolCreated n])).
  { rewrite <- HP. unfold map_pool, size_truthy.
    destruct size as [k|]; [|done].
    cbn in Hs. apply Z.ltb_lt in Hs.
    destruct (Z.eqb_spec k 0); [lia|done]. }
  eexists _, _, _, g', _. split; [|split; [exact Hd|]].
  - rewrite (map_run session_request cpu_count requests stream size None
               [] n Hp).
    apply map_loop_no_handler.
  - split; [apply omap_Permutation, completion_order_perm|].
    reflexivity.
Qed.

End ImapMore.

Lemma drain_closed (session_request :
      Value -> string -> string -> gmap string Value -> TransportResult)
    (cpu_count : option N)
    (completion_order : list AsyncRequest -> list AsyncRequest)
    (fuel : nat) :
  forall (g g' : Generator) (acc : list Response) (tr tr' : list Event)
         (o : Outcome (list Response)),
    drain session_request cpu_count completion_order fuel g acc tr
      = Some (o, g', tr') ->
    gi_state g' = GenClosed.
Proof.
  induction fuel as [|fuel IH]; intros g g' acc tr tr' o; [done|].
  cbn [drain].
  pose proof (next_finished session_request cpu_count completion_order
                g) as Hn.
  destruct (next session_request cpu_count completion_order g tr)
    as [[[r| |e] g1] tr1] eqn:Hnext.
  - apply IH.
  - intros [= _ <- _]. exact (Hn _ _ _ _ Hnext).
  - intros [= _ <- _]. exact (Hn _ _ _ _ Hnext).
Qed.

Section ImapEdge.

Variable session_request :
  Value -> string -> string -> gmap string Value -> TransportResult.
Variable cpu_count : option N.
Variable completion_order : list AsyncRequest -> list AsyncRequest.

(** X13: [imap] hands its size to the pool constructor without a test.
    With a size of zero or below, the first [next] raises [ValueError]
    and finishes the generator: no pool exists, no request has been
    sent and the handler has not been called.  [map] with size zero
    asks for the default pool instead. *)
Theorem X13_imap_size_is_not_tested (requests : list AsyncRequest)
    (stream : bool) (h : option Handler) (n : Z) (tr : list Event) :
  n <= 0 ->
  next session_request cpu_count completion_order
       (imap requests stream (Some n) h) tr
  = (Escaped ValueError,
     with_state (imap requests stream (Some n) h) GenClosed, tr)
  /\ map_pool cpu_count (Some 0) tr = Pool cpu_count None tr.
Proof.
  intros Hn. split; [|reflexivity].
  unfold next. cbn [gi_state imap].
  unfold imap_start, mbind, Py_bind. cbn [gi_size imap].
  rewrite Pool_sized. by destruct (Z.ltb_spec 0 n); [lia|].
Qed.


Hypothesis completion_order_perm : forall l, completion_order l ≡ₚ l.

(** X15: on an empty input both executors still create, close and join
    a pool; [map] returns the empty list and [imap] is exhausted at the
    first [next], without a call of the handler. *)
Theorem X15_empty_input (stream : bool) (size : option Z)
    (h : option Handler) :
  imap_size_accepted size = true ->
  exists n g',
    map session_request cpu_count [] stream size h []
      = (Returned [], [PoolCreated n; PoolClosed; PoolJoined])
    /\ next session_request cpu_count completion_order
            (imap [] stream size h) []
       = (Exhausted, g', [PoolCreated n; PoolClosed; PoolJoined])
    /\ gi_state g' = GenClosed.
Proof.
  intros Hs.
  assert (Hpool : exists n,
            Pool cpu_count size [] = (Returned n, [PoolCreated n])).
  { destruct size as [k|].
    - exists k. rewrite Pool_sized. cbn in Hs. by rewrite Hs.
    - exists (default_processes cpu_count). apply Pool_default. }
  destruct Hpool as [n HP]. exists n.
  assert (Hp : map_pool cpu_count size [] = (Returned n, [PoolCreated n])).
  { rewrite <- HP. unfold map_pool, size_truthy.
    destruct size as [k|]; [|done].
    cbn in Hs. apply Z.ltb_lt in Hs.
    destruct (Z.eqb_spec k 0); [lia|done]. }
  assert (Hnil : completion_order [] = [])
    by (apply Permutation_nil_r, completion_order_perm).
  eexists. split; [|split].
  - by rewrite (map_run session_request cpu_count [] stream size h [] n Hp).
  - unfold next. cbn [gi_state imap].
    unfold imap_start, mbind, Py_bind. cbn [gi_size imap]. rewrite HP.
    unfold Pool_imap_unordered. cbn [gi_requests imap List.map].
    rewrite Hnil. reflexivity.
  - reflexivity.
Qed.

End ImapEdge.

Lemma X11_imap_drained_witness :
  let sent := List.map (fun r => send demo_transport r false)
                       [unit_ok; unit_fail; unit_ok2] in
  exists g' tr',
    drain demo_transport demo_cpu_count reversed 4
          (imap [unit_ok; unit_fail; unit_ok2] false (Some 2)
                (Some recording_handler)) [] []
    = Some (Returned (omap truthy_response (reversed sent)), g', tr')
    /\ omap truthy_response (reversed sent) ≡ₚ omap truthy_response sent
    /\ handler_calls tr' ≡ₚ omap failure_of sent
    /\ pool_shut_down tr' = true
    /\ gi_state g' = GenClosed.
Proof.
  apply (X11_imap_drained demo_transport demo_cpu_count reversed
           (fun l => Permutation_sym (Permutation_rev l))
           [unit_ok; unit_fail; unit_ok2] false (Some 2)
           (Some recording_handler) 4).
  - reflexivity.
  - handled_by_evaluation.
  - cbn. lia.
Defined.

Lemma X12_imap_yields_what_map_returns_witness :
  exists res_map res_imap tr_map g' tr_imap,
    map demo_transport demo_cpu_count [unit_ok; unit_missing; unit_ok2]
        false (Some 2) None []
      = (Returned res_map, tr_map)
    /\ drain demo_transport demo_cpu_count reversed 4
             (imap [unit_ok; unit_missing; unit_ok2] false (Some 2) None)
             [] []
       = Some (Returned res_imap, g', tr_imap)
    /\ res_imap ≡ₚ res_map
    /\ tr_imap = tr_map.
Proof.
  apply (X12_imap_yields_what_map_returns demo_transport demo_cpu_count
           reversed (fun l => Permutation_sym (Permutation_rev l))
           [unit_ok; unit_missing; unit_ok2] false (Some 2) 4).
  - reflexivity.
  - cbn. lia.
Defined.

Lemma X13_imap_size_is_not_tested_witness :
  next demo_transport demo_cpu_count in_order
       (imap [unit_ok] false (Some 0) None) []
  = (Escaped ValueError,
     with_state (imap [unit_ok] false (Some 0) None) GenClosed, [])
  /\ map_pool demo_cpu_count (Some 0) [] = Pool demo_cpu_count None [].
Proof.
  apply (X13_imap_size_is_not_tested demo_transport demo_cpu_count
           in_order [unit_ok] false None 0 []).
  lia.
Defined.


Lemma X15_empty_input_witness :
  exists n g',
    map demo_transport demo_cpu_count [] true None
        (Some recording_handler) []
      = (Returned [], [PoolCreated n; PoolClosed; PoolJoined])
    /\ next demo_transport demo_cpu_count reversed
            (imap [] true None (Some recording_handler)) []
       = (Exhausted, g', [PoolCreated n; PoolClosed; PoolJoined])
    /\ gi_state g' = GenClosed.
Proof.
  apply (X15_empty_input demo_transport demo_cpu_count reversed
           (fun l => Permutation_sym (Permutation_rev l))
           true None (Some recording_handler)).
  reflexivity.
Defined.

(** ** Exceptions in stream mode *)

Lemma imap_resume_raised (g : Generator) (l : list AsyncRequest)
    (tr tr' : list Event) (e : Exception) :
  imap_resume g l tr = (Raised e, tr') ->
  pool_events tr' = pool_events tr.
Proof.
  unfold imap_resume, mbind, Py_bind.
  destruct (imap_loop_spec (gi_exception_handler g) l tr) as [Hp _].
  destruct (imap_loop (gi_exception_handler g) l tr)
    as [[[[r rest]|]|e0] tr1]; cbn [snd] in Hp; [done|done|].
  by intros [= _ <-].
Qed.

Section ImapRaises.

Variable session_request :
  Value -> string -> string -> gmap string Value -> TransportResult.
Variable cpu_count : option N.
Variable completion_order : list AsyncRequest -> list AsyncRequest.

Lemma drain_raised (fuel : nat) :
  forall (g g' : Generator) (pending : list AsyncRequest)
         (acc : list Response) (tr tr' : list Event) (e : Exception),
    gi_state g = GenSuspended pending ->
    drain session_request cpu_count completion_order fuel g acc tr
      = Some (Raised e, g', tr') ->
    pool_events tr' = pool_events tr.
Proof.
  induction fuel as [|fuel IH]; intros g g' pending acc tr tr' e Hg;
    [done|].
  cbn [drain]. unfold next. rewrite Hg.
  pose proof (imap_resume_spec g pending tr) as Hs.
  destruct (imap_resume g pending tr) as [[[[r rest]|]|e0] tr1] eqn:Hr.
  - destruct Hs as [_ Hp]. intros Hd.
    rewrite <- Hp.
    exact (IH (with_state g (GenSuspended rest)) g' rest _ _ _ _
              eq_refl Hd).
  - done.
  - intros [= _ _ <-]. exact (imap_resume_raised _ _ _ _ _ Hr).
Qed.

(** X16: when an exception ends the pull of [imap] (the pool refuses
    the size, the handler raises, or the exception attribute is
    missing), the generator is finished and [imap] has not closed or
    joined its pool: either no pool was created, the exception being
    the [ValueError] of the pool, or the pool is left as created. *)
Theorem X16_imap_exception_skips_teardown (requests : list AsyncRequest)
    (stream : bool) (size : option Z) (h : option Handler) (fuel : nat)
    (e : Exception) (g' : Generator) (tr' : list Event) :
  drain session_request cpu_count completion_order fuel
        (imap requests stream size h) [] [] = Some (Raised e, g', tr') ->
  gi_state g' = GenClosed
  /\ pool_shut_down tr' = false
  /\ (tr' = [] /\ e = ValueError \/ pool_left_running tr' = true).
Proof.
  intros Hd. split; [exact (drain_closed _ _ _ _ _ _ _ _ _ _ Hd)|].
  destruct fuel as [|fuel]; [done|].
  revert Hd. cbn [drain]. unfold next. cbn [gi_state imap].
  unfold imap_start, mbind, Py_bind. cbn [gi_size imap].
  assert (HP : (exists n, Pool cpu_count size [] = (Returned n, [PoolCreated n]))
               \/ Pool cpu_count size [] = (Raised ValueError, [])).
  { destruct size as [k|].
    - rewrite Pool_sized. destruct (0 <? k); [left; by exists k|by right].
    - left. exists (default_processes cpu_count). apply Pool_default. }
  destruct HP as [[n ->]| ->].
  - set (done_ := Pool_imap_unordered _ _ _).
    pose proof (imap_resume_spec (imap requests stream size h) done_
                  [PoolCreated n]) as Hs.
    destruct (imap_resume (imap requests stream size h) done_
                [PoolCreated n]) as [[[[r rest]|]|e0] tr1] eqn:Hr.
    + destruct Hs as [_ Hp]. intros Hd.
      apply (drain_raised fuel _ _ rest) in Hd; [|done].
      unfold pool_shut_down, pool_left_running.
      rewrite Hd, Hp. cbn. by split; [|right].
    + done.
    + intros [= <- _ <-].
      apply imap_resume_raised in Hr.
      unfold pool_shut_down, pool_left_running. rewrite Hr. cbn.
      by split; [|right].
  - intros [= <- _ <-]. split; [done|by left].
Qed.

End ImapRaises.

Lemma X16_imap_exception_skips_teardown_witness :
  let out :=
    drain demo_transport demo_cpu_count in_order 3
          (imap [unit_ok; unit_fail] false (Some 2) (Some raising_handler))
          [] [] in
  exists e g' tr',
    out = Some (Raised e, g', tr')
    /\ gi_state g' = GenClosed
    /\ pool_shut_down tr' = false
    /\ (tr' = [] /\ e = ValueError \/ pool_left_running tr' = true).
Proof.
  eexists _, _, _. split; [vm_compute; reflexivity|].
  apply (X16_imap_exception_skips_teardown demo_transport demo_cpu_count
           in_order [unit_ok; unit_fail] false (Some 2)
           (Some raising_handler) 3).
  vm_compute. reflexivity.
Defined.
